(** * AppScale Search API stub

    A shallow embedding of
    [AppServer/google/appengine/api/search/appscale_search_stub.py]
    (class [SearchServiceStub]) and the properties of it that the design
    document states.

    The stub is Python 2 code.  It is modelled as it is written:
    - an instance is its attribute dictionary, a finite map from the
      (name-mangled) attribute name to a value; reading an attribute that
      was never assigned raises [AttributeError];
    - a module-level name is looked up among the names the module binds;
      a name that no [import] or assignment binds raises [NameError];
    - a method is a computation over the state of the world (the instance,
      the file system, the log, the requests handed to the network) that
      returns a value, raises an exception or blocks;
    - [try]/[except]/[finally] are combinators of that computation type. *)

From Stdlib Require Import ZArith String List Bool.
From stdpp Require Import base option gmap strings.

Local Open Scope Z_scope.
Local Open Scope string_scope.

(** ** Exceptions and outcomes *)

(** The exception classes the module names or can meet. *)
Inductive exn : Type :=
| AttributeError (attr : string)
| NameError (name : string)
| TypeError
| ValueError
| KeyError
| ImportError
| IOError
| EOFError
| UnpicklingError
| ThreadError
| ProtocolBufferDecodeError
| InternalError (msg : string)
| ApplicationError (code : Z) (detail : string)
| ServerSideError (repr : string).

(** A call returns, raises, or never comes back (a lock that is never
    released, a peer that never answers). *)
Inductive outcome (A : Type) : Type :=
| Ok (a : A)
| Raise (e : exn)
| Blocks.
Arguments Ok {A} a.
Arguments Raise {A} e.
Arguments Blocks {A}.

(** Computations over a state [S]. *)
Definition M (S A : Type) : Type := S -> outcome A * S.

Definition ret {S A} (a : A) : M S A := fun s => (Ok a, s).

Definition raise {S A} (e : exn) : M S A := fun s => (Raise e, s).

Definition bind {S A B} (m : M S A) (k : A -> M S B) : M S B :=
  fun s =>
    match m s with
    | (Ok a, s') => k a s'
    | (Raise e, s') => (Raise e, s')
    | (Blocks, s') => (Blocks, s')
    end.

Notation "'let*' x ':=' m 'in' k" := (bind m (fun x => k))
  (at level 10, x name, m at level 100, k at level 200, only parsing).
Notation "'let*' ' p ':=' m 'in' k" := (bind m (fun x => match x with p => k end))
  (at level 10, p pattern, m at level 100, k at level 200, only parsing).
Notation "m ';;;' k" := (bind m (fun _ => k))
  (at level 100, k at level 200, right associativity, only parsing).

(** [try: body finally: final].  The [finally] suite runs whether the body
    returned or raised; what it raises replaces the pending outcome. *)
Definition try_finally {S A} (body : M S A) (final : M S unit) : M S A :=
  fun s =>
    match body s with
    | (Blocks, s') => (Blocks, s')
    | (r, s') =>
        match final s' with
        | (Ok _, s'') => (r, s'')
        | (Raise e, s'') => (Raise e, s'')
        | (Blocks, s'') => (Blocks, s'')
        end
    end.

(** [try: body except clause, e: handler e].  The expression after
    [except] is evaluated only once the body has raised, and an exception
    raised by that evaluation propagates in place of the one being
    handled. *)
Definition try_except {S A} (body : M S A) (clause : M S (exn -> bool))
    (handler : exn -> M S A) : M S A :=
  fun s =>
    match body s with
    | (Raise e, s') =>
        match clause s' with
        | (Ok matches, s'') =>
            if matches e then handler e s'' else (Raise e, s'')
        | (Raise e', s'') => (Raise e', s'')
        | (Blocks, s'') => (Blocks, s'')
        end
    | r => r
    end.

(** ** Values *)

(** [index_spec.namespace()] and [index_spec.name()]. *)
Record IndexSpec : Type := mkIndexSpec {
  spec_namespace : option string;
  spec_name : string;
}.

(** Modelled from the spec: the class
    [simple_search_stub.SimpleIndex] is imported, not defined, by the
    source file.  An index handle is an object: it has an identity and
    keeps the index specification it was built from. *)
Record SimpleIndex : Type := mkSimpleIndex {
  index_id : nat;
  index_spec_of : IndexSpec;
}.

(** What an attribute of the stub, or a constructor argument, can hold.
    [VDict] is the two-level dictionary namespace -> name -> handle. *)
Inductive value : Type :=
| VNone
| VInt (n : Z)
| VStr (s : string)
| VDict (d : gmap string (gmap string SimpleIndex))
| VLock (locked : bool).

(** Python truth value, as [if not x] and [if x] test it. *)
Definition truthy (v : value) : bool :=
  match v with
  | VNone => false
  | VInt n => negb (Z.eqb n 0)
  | VStr s => negb (String.eqb s "")
  | VDict d => negb (bool_decide (d = ∅))
  | VLock _ => true
  end.

(** A regular file holds a pickle of a pair (version, indexes) or other
    bytes. *)
Inductive file : Type :=
| Pickle (version : Z) (indexes : gmap string (gmap string SimpleIndex))
| Raw (data : string).

(** ** The remote API messages *)

(** Modelled from the spec: [remote_api_pb.Request] is imported, not
    defined, by the source file; these are the three fields the stub
    sets. *)
Record ApiRequest : Type := mkApiRequest {
  service_name_ : string;
  method_ : string;
  request_ : string;
}.

Definition Request_new : ApiRequest :=
  {| service_name_ := ""; method_ := ""; request_ := "" |}.
Definition set_method (x : string) (r : ApiRequest) : ApiRequest :=
  {| service_name_ := service_name_ r; method_ := x; request_ := request_ r |}.
Definition set_service_name (x : string) (r : ApiRequest) : ApiRequest :=
  {| service_name_ := x; method_ := method_ r; request_ := request_ r |}.
Definition set_request (x : string) (r : ApiRequest) : ApiRequest :=
  {| service_name_ := service_name_ r; method_ := method_ r; request_ := x |}.

Record ApplicationErrorPb : Type := mkApplicationErrorPb {
  code_ : Z;
  detail_ : string;
}.

(** Modelled from the spec: [remote_api_pb.Response] is imported, not
    defined, by the source file; these are the three optional fields the
    stub tests with [has_response], [has_application_error] and
    [has_exception]: a field that is set is [Some]. *)
Record ApiResponse : Type := mkApiResponse {
  response_ : option string;
  application_error_ : option ApplicationErrorPb;
  exception_ : option exn;
}.

Definition Response_new : ApiResponse :=
  {| response_ := None; application_error_ := None; exception_ := None |}.
(** The arguments of one [sendCommand] call, in the order of the call
    site. *)
Record SendCommand : Type := mkSendCommand {
  sc_self : ApiRequest;
  sc_location : value;
  sc_url : string;
  sc_response : ApiResponse;
  sc_arg4 : Z;
  sc_arg5 : bool;
  sc_keyfile : string;
  sc_certfile : string;
}.

(** ** The world *)

Inductive log_arg : Type :=
| ArgValue (v : value)
| ArgExn (e : exn).

Inductive log_record : Type :=
| Warning (format : string) (args : list log_arg)
| Error (format : string) (args : list log_arg).

Record World : Type := mkWorld {
  (** the stub instance: its attribute dictionary *)
  attrs : gmap string value;
  (** the regular files of the local file system, by path *)
  files : gmap string file;
  (** what [logging] has been given, latest first *)
  log : list log_record;
  (** the [sendCommand] calls issued, latest first *)
  sent : list SendCommand;
  (** the datastore server and the network in front of it *)
  server : SendCommand -> outcome (option ApiResponse);
  (** what [namespace_manager.get_namespace()] returns *)
  current_namespace : string;
  (** the identity the next allocated index handle gets *)
  next_id : nat;
}.

Definition set_attrs (f : gmap string value -> gmap string value) (w : World) : World :=
  {| attrs := f (attrs w); files := files w; log := log w; sent := sent w;
     server := server w; current_namespace := current_namespace w;
     next_id := next_id w |}.
Definition add_log (r : log_record) (w : World) : World :=
  {| attrs := attrs w; files := files w; log := r :: log w; sent := sent w;
     server := server w; current_namespace := current_namespace w;
     next_id := next_id w |}.
Definition add_sent (c : SendCommand) (w : World) : World :=
  {| attrs := attrs w; files := files w; log := log w; sent := c :: sent w;
     server := server w; current_namespace := current_namespace w;
     next_id := next_id w |}.
Definition bump_next_id (w : World) : World :=
  {| attrs := attrs w; files := files w; log := log w; sent := sent w;
     server := server w; current_namespace := current_namespace w;
     next_id := S (next_id w) |}.
(** What is outside the stub can change between two calls. *)
Definition set_environment (fs : gmap string file)
    (srv : SendCommand -> outcome (option ApiResponse)) (ns : string)
    (w : World) : World :=
  {| attrs := attrs w; files := fs; log := log w; sent := sent w;
     server := srv; current_namespace := ns; next_id := next_id w |}.

(** ** Names *)

(** The names the module binds at its top level: its [import]s, in the
    order of the source, its two constants and its class. *)
Definition module_globals : list string :=
  [ "logging"; "os"; "string"; "tempfile"; "threading"; "urllib"; "uuid";
    "document_pb"; "apiproxy_stub"; "namespace_manager"; "query_parser";
    "QueryParser"; "search"; "search_service_pb"; "search_util";
    "SimpleIndex"; "remote_api_pb"; "apiproxy_errors";
    "CERT_LOCATION"; "KEY_LOCATION"; "SearchServiceStub" ].

(** Evaluating a module-level name. *)
Definition global_name {S} (name : string) : M S unit :=
  if existsb (String.eqb name) module_globals then ret tt
  else raise (NameError name).

(** Where the SSL certificate is placed for encrypted communication. *)
Definition CERT_LOCATION : string := "/etc/appscale/certs/mycert.pem".

(** Where the SSL private key is placed for encrypted communication. *)
Definition KEY_LOCATION : string := "/etc/appscale/certs/mykey.pem".

(** [self.__x] written inside [class C] names the attribute [_C__x]. *)
Definition mangle (class_name attr : string) : string :=
  "_" +:+ class_name +:+ attr.

Definition private (attr : string) : string := mangle "SearchServiceStub" attr.

(** ** Primitive operations *)

(** [self.a] as an expression. *)
Definition getattr (a : string) : M World value :=
  fun w =>
    match attrs w !! a with
    | Some v => (Ok v, w)
    | None => (Raise (AttributeError a), w)
    end.

(** [self.a = v]. *)
Definition setattr (a : string) (v : value) : M World unit :=
  fun w => (Ok tt, set_attrs <[a := v]> w).

(** [self.a.acquire()] on a [threading.Lock]: a lock that is held is
    waited for, and in a single thread of control nobody releases it. *)
Definition acquire (a : string) : M World unit :=
  let* lock := getattr a in
  match lock with
  | VLock false => setattr a (VLock true)
  | VLock true => fun w => (Blocks, w)
  | _ => raise (AttributeError "acquire")
  end.

(** [self.a.release()]. *)
Definition release (a : string) : M World unit :=
  let* lock := getattr a in
  match lock with
  | VLock true => setattr a (VLock false)
  | VLock false => raise ThreadError
  | _ => raise (AttributeError "release")
  end.

(** [logging.warning(format, *args)] and [logging.error(format, *args)]. *)
Definition logging_warning (format : string) (args : list log_arg) : M World unit :=
  global_name "logging";;;
  fun w => (Ok tt, add_log (Warning format args) w).

Definition logging_error (format : string) (args : list log_arg) : M World unit :=
  global_name "logging";;;
  fun w => (Ok tt, add_log (Error format args) w).

(** Whether a string has a NUL byte.  No file has such a name, and
    Python 2 refuses such a path with a [TypeError] before it asks the
    file system. *)
Fixpoint has_NUL (s : string) : bool :=
  match s with
  | EmptyString => false
  | String c rest => Ascii.eqb c Ascii.zero || has_NUL rest
  end.

(** [os.path.isfile(path)]: whether [path] names a regular file.  It
    answers [False] when [os.stat] fails with [os.error], but the
    [TypeError] of [os.stat] for a path that is not a string, or that
    has a NUL byte, passes through. *)
Definition os_path_isfile (path : value) : M World bool :=
  match path with
  | VStr p =>
      fun w =>
        match files w !! p with
        | Some _ => (Ok true, w)
        | None => if has_NUL p then (Raise TypeError, w) else (Ok false, w)
        end
  | _ => raise TypeError
  end.

(** [open(path, 'rb')]. *)
Definition open_rb (path : value) : M World file :=
  match path with
  | VStr p =>
      fun w =>
        match files w !! p with
        | Some f => (Ok f, w)
        | None => if has_NUL p then (Raise TypeError, w) else (Raise IOError, w)
        end
  | _ => raise TypeError
  end.

(** [pickle.load(f)] followed by the unpacking into a pair. *)
Definition pickle_load (f : file)
    : M World (Z * gmap string (gmap string SimpleIndex)) :=
  match f with
  | Pickle version indexes => ret (version, indexes)
  | Raw "" => raise EOFError
  | Raw _ => raise UnpicklingError
  end.

(** Modelled from the spec: [namespace_manager] is imported, not defined,
    by the source file; [get_namespace()] returns the name of the current
    global namespace. *)
Definition get_namespace : M World string :=
  global_name "namespace_manager";;;
  fun w => (Ok (current_namespace w), w).

(** [SimpleIndex(index_spec)]: a new object. *)
Definition SimpleIndex_new (index_spec : IndexSpec) : M World SimpleIndex :=
  global_name "SimpleIndex";;;
  fun w =>
    (Ok {| index_id := next_id w; index_spec_of := index_spec |},
     bump_next_id w).

(** An attribute that is used as a dictionary. *)
Definition getattr_dict (a : string)
    : M World (gmap string (gmap string SimpleIndex)) :=
  let* v := getattr a in
  match v with
  | VDict d => ret d
  | _ => raise (AttributeError "setdefault")
  end.

(** Modelled from the spec: the base class [apiproxy_stub.APIProxyStub]
    is imported, not defined, by the source file, and the design
    document does not describe it.  Its constructor is taken to return
    after keeping what it is given in attributes of its own, which
    Python mangles with the name of the base class; the two attributes
    below stand for those, and nothing is stated about them.  What the
    properties of the stub need of this constructor is that it returns
    and assigns no attribute of [SearchServiceStub]. *)
Definition APIProxyStub__init__ (service_name : value) : M World unit :=
  setattr (mangle "APIProxyStub" "__service_name") service_name;;;
  setattr (mangle "APIProxyStub" "__max_request_size") (VInt (Z.shiftl 1 20)).

(** ** The stub *)

Definition _VERSION : Z := 1.

(** [_GetNamespace]: the namespace given in the request when there is
    one, the current global namespace otherwise. *)
Definition _GetNamespace (namespace : option string) : M World string :=
  match namespace with
  | Some ns => ret ns
  | None => get_namespace
  end.

(** [_GetIndex]. *)
Definition _GetIndex (index_spec : IndexSpec) (create : bool)
    : M World (option SimpleIndex) :=
  let* namespace := _GetNamespace (spec_namespace index_spec) in
  (* self.__indexes.setdefault(namespace, {}) *)
  let* indexes := getattr_dict (private "__indexes") in
  let* inner :=
    match indexes !! namespace with
    | Some d => ret d
    | None =>
        setattr (private "__indexes") (VDict (<[namespace := ∅]> indexes));;;
        ret ∅
    end in
  (* .get(index_spec.name()) *)
  match inner !! spec_name index_spec with
  | Some index => ret (Some index)
  | None =>
      if create then
        let* index := SimpleIndex_new index_spec in
        (* self.__indexes[namespace][index_spec.name()] = index *)
        let* indexes := getattr_dict (private "__indexes") in
        match indexes !! namespace with
        | Some d =>
            setattr (private "__indexes")
              (VDict (<[namespace := <[spec_name index_spec := index]> d]> indexes));;;
            ret (Some index)
        | None => raise KeyError
        end
      else ret None
  end.

(** [Write]: "This method is a no-op." *)
Definition Write : M World unit := ret tt.

(** The suite under [try:] in [_ReadFromFile].  [Some indexes] is the
    [return indexes] of the source; [None] is falling out of the suite. *)
Definition _ReadFromFile_try
    : M World (option (gmap string (gmap string SimpleIndex))) :=
  global_name "os";;;
  let* index_file := getattr (private "__index_file") in
  let* isfile := os_path_isfile index_file in
  if isfile then
    global_name "pickle";;;
    let* index_file := getattr (private "__index_file") in
    let* f := open_rb index_file in
    let* '(version, indexes) := pickle_load f in
    if Z.eqb version _VERSION then ret (Some indexes)
    else
      logging_warning
        ("Saved search indexes are not compatible with this version of the "
         +:+ "SDK. Search indexes have been cleared.") [];;;
      ret None
  else
    let* index_file := getattr (private "__index_file") in
    logging_warning "Could not read search indexes from %s" [ArgValue index_file];;;
    ret None.

(** The expression after [except]: a tuple of eight classes, the seventh
    of them [pickle.PickleError]. *)
Definition _ReadFromFile_except : M World (exn -> bool) :=
  global_name "pickle";;;
  ret (fun e =>
         match e with
         | AttributeError _ | KeyError | ImportError | NameError _
         | TypeError | ValueError | UnpicklingError | IOError => true
         | _ => false
         end).

(** The suite of the [except] clause. *)
Definition _ReadFromFile_handler (e : exn)
    : M World (option (gmap string (gmap string SimpleIndex))) :=
  let* index_file := getattr (private "__index_file") in
  logging_warning
    ("Could not read indexes from %s. Try running with the "
     +:+ "--clear_search_index flag. Cause:\n%r")
    [ArgValue index_file; ArgExn e];;;
  ret None.

(** [_ReadFromFile]. *)
Definition _ReadFromFile : M World (gmap string (gmap string SimpleIndex)) :=
  acquire (private "__index_file_lock");;;
  let* returned :=
    try_finally
      (try_except _ReadFromFile_try _ReadFromFile_except _ReadFromFile_handler)
      (release (private "__index_file_lock")) in
  match returned with
  | Some indexes => ret indexes
  | None => ret ∅
  end.

(** [Read]: "This method is a no-op if index_file is set to None." *)
Definition Read : M World unit :=
  let* index_file := getattr (private "__index_file") in
  if negb (truthy index_file) then ret tt
  else
    let* read_indexes := _ReadFromFile in
    if truthy (VDict read_indexes)
    then setattr (private "__indexes") (VDict read_indexes)
    else ret tt.

(** [__init__]. *)
Definition __init__ (service_name index_file : value) : M World unit :=
  setattr (private "__indexes") (VDict ∅);;;
  setattr (private "__index_file") index_file;;;
  global_name "threading";;;
  setattr (private "__index_file_lock") (VLock false);;;
  APIProxyStub__init__ service_name;;;
  Read.

(** [SearchServiceStub(service_name, index_file)]: [__init__] on a new
    instance, one without any attribute. *)
Definition SearchServiceStub (service_name index_file : value) : M World unit :=
  fun w => __init__ service_name index_file (set_attrs (fun _ => ∅) w).

(** ** Forwarding *)

(** The two methods of a protocol message that the stub calls.
    [Encode] is called on requests, which reach the stub initialised;
    [ParseFromString] updates the message in place and can fail on bytes
    that are not an encoding. *)
Class ProtocolMessage (T : Type) : Type := {
  Encode : T -> string;
  ParseFromString : string -> M T unit;
}.

(** The methods the class defines, in the order of the source. *)
Definition methods : list string :=
  [ "__init__"; "_InvalidRequest"; "_UnknownIndex"; "_GetNamespace";
    "_GetIndex"; "_Dynamic_IndexDocument"; "_Dynamic_DeleteDocument";
    "_Dynamic_ListIndexes"; "_Dynamic_ListDocuments"; "_Dynamic_Search";
    "__repr__"; "Write"; "_ReadFromFile"; "Read"; "_RemoteSend" ].

(** "Services are provided by the methods prefixed by _Dynamic_": the
    names under which the stub can be called from outside. *)
Definition services : list string :=
  map (fun m => String.substring 9 (String.length m - 9) m)
      (filter (fun m => String.prefix "_Dynamic_" m = true) methods).

Section Forwarding.

Context {Req Resp : Type} `{!ProtocolMessage Req} `{!ProtocolMessage Resp}.

(** A call that is given a response object runs over the world and that
    object. *)
Definition on_world {A} (m : M World A) : M (World * Resp) A :=
  fun s =>
    match m (fst s) with
    | (r, w') => (r, (w', snd s))
    end.

Definition on_response {A} (m : M Resp A) : M (World * Resp) A :=
  fun s =>
    match m (snd s) with
    | (r, response') => (r, (fst s, response'))
    end.

(** Modelled from the spec: [sendCommand] is a method of the imported
    [remote_api_pb.Request], not defined by the source file.  It hands
    the request to the server at the given location and returns the
    server's reply, or [None]. *)
Definition sendCommand (c : SendCommand) : M World (option ApiResponse) :=
  fun w => (server w c, add_sent c w).

(** The request that [_RemoteSend] builds. *)
Definition api_request_of (request : Req) (method : string) : ApiRequest :=
  let api_request := Request_new in
  let api_request := set_method method api_request in
  let api_request := set_service_name "search" api_request in
  let api_request := set_request (Encode request) api_request in
  api_request.

(** The [raise datastore_errors.InternalError(...)] statement. *)
Definition raise_no_response (method : string) : M (World * Resp) unit :=
  global_name "datastore_errors";;;
  raise (InternalError
           ("No response from db server on " +:+ method +:+ " requests.")).

(** [_RemoteSend]: "Sends a request remotely to the datstore server." *)
Definition _RemoteSend (request : Req) (method : string) : M (World * Resp) unit :=
  global_name "remote_api_pb";;;
  let api_request := api_request_of request method in
  let api_response := Response_new in
  let* location := on_world (getattr (private "__datastore_location")) in
  global_name "KEY_LOCATION";;;
  global_name "CERT_LOCATION";;;
  let* api_response :=
    on_world
      (sendCommand
         {| sc_self := api_request;
            sc_location := location;
            sc_url := "";
            sc_response := api_response;
            sc_arg4 := 1;
            sc_arg5 := false;
            sc_keyfile := KEY_LOCATION;
            sc_certfile := CERT_LOCATION |}) in
  match api_response with
  | None => raise_no_response method
  | Some api_response =>
      match response_ api_response with
      | None => raise_no_response method
      | Some payload =>
          match application_error_ api_response with
          | Some error_pb =>
              on_world (logging_error (detail_ error_pb) []);;;
              global_name "apiproxy_errors";;;
              raise (ApplicationError (code_ error_pb) (detail_ error_pb))
          | None =>
              match exception_ api_response with
              | Some e => raise e
              | None => on_response (ParseFromString payload)
              end
          end
      end
  end.

(** The command that [_RemoteSend] issues. *)
Definition command (request : Req) (method : string) (location : value)
    : SendCommand :=
  {| sc_self := api_request_of request method;
     sc_location := location;
     sc_url := "";
     sc_response := Response_new;
     sc_arg4 := 1;
     sc_arg5 := false;
     sc_keyfile := KEY_LOCATION;
     sc_certfile := CERT_LOCATION |}.

(** The five services. *)
Definition _Dynamic_IndexDocument (request : Req) : M (World * Resp) unit :=
  _RemoteSend request "IndexDocument".

Definition _Dynamic_DeleteDocument (request : Req) : M (World * Resp) unit :=
  _RemoteSend request "DeleteDocument".

Definition _Dynamic_ListIndexes (request : Req) : M (World * Resp) unit :=
  _RemoteSend request "ListIndexes".

Definition _Dynamic_ListDocuments (request : Req) : M (World * Resp) unit :=
  _RemoteSend request "ListDocuments".

Definition _Dynamic_Search (request : Req) : M (World * Resp) unit :=
  _RemoteSend request "Search".

(** The [_Dynamic_] entries of the class dictionary. *)
Definition dynamic_methods : list (string * (Req -> M (World * Resp) unit)) :=
  [ ("_Dynamic_IndexDocument", _Dynamic_IndexDocument);
    ("_Dynamic_DeleteDocument", _Dynamic_DeleteDocument);
    ("_Dynamic_ListIndexes", _Dynamic_ListIndexes);
    ("_Dynamic_ListDocuments", _Dynamic_ListDocuments);
    ("_Dynamic_Search", _Dynamic_Search) ].

Fixpoint lookup_method {A} (name : string) (table : list (string * A)) : option A :=
  match table with
  | [] => None
  | (n, f) :: rest => if String.eqb n name then Some f else lookup_method name rest
  end.

(** The method that a call of the service [name] runs: the attribute
    [_Dynamic_name] of the stub, when the class has one. *)
Definition service (name : string) : option (Req -> M (World * Resp) unit) :=
  lookup_method ("_Dynamic_" +:+ name) dynamic_methods.

(** ** Histories *)

(** What can happen to an instance once it is built: a call of one of
    its methods, or a change of what surrounds it.  [_InvalidRequest],
    [_UnknownIndex] and [__repr__] only read the instance and are left
    out. *)
Inductive call : Type :=
| Call_GetNamespace (namespace : option string)
| Call_GetIndex (index_spec : IndexSpec) (create : bool)
| Call_Write
| Call_ReadFromFile
| Call_Read
| Call_RemoteSend (request : Req) (response : Resp) (method : string)
| Call_Service (name : string) (request : Req) (response : Resp)
| Environment (fs : gmap string file)
    (srv : SendCommand -> outcome (option ApiResponse)) (ns : string).

(** The world after a call, whatever its outcome. *)
Definition after (c : call) (w : World) : World :=
  match c with
  | Call_GetNamespace namespace => snd (_GetNamespace namespace w)
  | Call_GetIndex index_spec create => snd (_GetIndex index_spec create w)
  | Call_Write => snd (Write w)
  | Call_ReadFromFile => snd (_ReadFromFile w)
  | Call_Read => snd (Read w)
  | Call_RemoteSend request response method =>
      fst (snd (_RemoteSend request method (w, response)))
  | Call_Service name request response =>
      match service name with
      | Some f => fst (snd (f request (w, response)))
      | None => w
      end
  | Environment fs srv ns => set_environment fs srv ns w
  end.

Definition after_all (cs : list call) (w : World) : World :=
  fold_left (fun w c => after c w) cs w.

End Forwarding.

Arguments call : clear implicits.

(** * Notions used in the statements *)

(** The world once [_ReadFromFile] has taken, and has given back, the
    lock of the index file. *)
Definition lock (w : World) : World :=
  set_attrs <[private "__index_file_lock" := VLock true]> w.

Definition unlock (w : World) : World :=
  set_attrs <[private "__index_file_lock" := VLock false]> w.

(** The warning for an index file that is not there. *)
Definition could_not_read (index_file : value) : log_record :=
  Warning "Could not read search indexes from %s" [ArgValue index_file].

(** The namespace that an index specification stands for. *)
Definition resolve (index_spec : IndexSpec) (w : World) : string :=
  match spec_namespace index_spec with
  | Some ns => ns
  | None => current_namespace w
  end.

(** The dictionary in [self.__indexes]. *)
Definition indexes_of (w : World) : option (gmap string (gmap string SimpleIndex)) :=
  match attrs w !! private "__indexes" with
  | Some (VDict d) => Some d
  | _ => None
  end.

(** [self.__indexes[namespace][name]], when there is such an entry. *)
Definition cached (w : World) (namespace name : string) : option SimpleIndex :=
  match indexes_of w with
  | Some d =>
      match d !! namespace with
      | Some inner => inner !! name
      | None => None
      end
  | None => None
  end.

(** [self.__indexes = d]. *)
Definition with_indexes (d : gmap string (gmap string SimpleIndex)) (w : World) : World :=
  set_attrs <[private "__indexes" := VDict d]> w.

(** The object that [SimpleIndex(index_spec)] allocates. *)
Definition new_index (index_spec : IndexSpec) (w : World) : SimpleIndex :=
  {| index_id := next_id w; index_spec_of := index_spec |}.

(** Every handle in the cache was allocated before now. *)
Definition allocated (w : World) : Prop :=
  forall namespace name h,
    cached w namespace name = Some h -> (index_id h < next_id w)%nat.

(** No two entries of the cache hold the same handle. *)
Definition distinct (w : World) : Prop :=
  forall namespace name namespace' name' h,
    cached w namespace name = Some h ->
    cached w namespace' name' = Some h ->
    namespace = namespace' /\ name = name'.

(** What a call that writes only the attributes [written] leaves
    alone: every other attribute, the files, the server and the current
    namespace. *)
Definition frame (written : list string) (w w' : World) : Prop :=
  (forall a, a ∉ written -> attrs w' !! a = attrs w !! a)
  /\ files w' = files w
  /\ server w' = server w
  /\ current_namespace w' = current_namespace w.

(** The attributes of an instance when [__init__] reaches [self.Read()]. *)
Definition fresh_attrs (service_name index_file : value) : gmap string value :=
  <[mangle "APIProxyStub" "__max_request_size" := VInt (Z.shiftl 1 20)]>
    (<[mangle "APIProxyStub" "__service_name" := service_name]>
       (<[private "__index_file_lock" := VLock false]>
          (<[private "__index_file" := index_file]>
             (<[private "__indexes" := VDict ∅]> ∅)))).

(** The world when [__init__] reaches [self.Read()]. *)
Definition fresh (service_name index_file : value) (w : World) : World :=
  set_attrs (fun _ => fresh_attrs service_name index_file) w.

(** "Write saves the current indexes to index_file": the file named by
    [index_file] holds a pickle of the version and the cache. *)
Definition saves_indexes (before after : World) : Prop :=
  forall p d,
    attrs before !! private "__index_file" = Some (VStr p) ->
    indexes_of before = Some d ->
    files after !! p = Some (Pickle _VERSION d).

(** ** Sample messages *)

(** A message with one text field, whose encoding is the text; bytes
    that start with an exclamation mark are not an encoding, and parsing
    them leaves the message cleared. *)
Module Sample.

Record TextMessage : Type := mkTextMessage { text : string }.

#[export] Instance TextMessage_ProtocolMessage : ProtocolMessage TextMessage := {|
  Encode m := text m;
  ParseFromString payload := fun _ =>
    if String.prefix "!" payload
    then (Raise ProtocolBufferDecodeError, {| text := "" |})
    else (Ok tt, {| text := payload |});
|}.

(** A server that answers every command with the method name it was
    sent. *)
Definition echo_server (c : SendCommand) : outcome (option ApiResponse) :=
  Ok (Some {| response_ := Some (method_ (sc_self c));
              application_error_ := None;
              exception_ := None |}).

(** A server that answers with a fixed reply. *)
Definition fixed_server (reply : option ApiResponse) (c : SendCommand)
    : outcome (option ApiResponse) := Ok reply.

(** A world without files, where nothing has been logged or sent. *)
Definition empty_world : World :=
  {| attrs := ∅; files := ∅; log := []; sent := []; server := echo_server;
     current_namespace := ""; next_id := 0 |}.

(** The same world with other files, or another server. *)
Definition with_files (fs : gmap string file) (w : World) : World :=
  set_environment fs (server w) (current_namespace w) w.

Definition with_server (srv : SendCommand -> outcome (option ApiResponse))
    (w : World) : World :=
  set_environment (files w) srv (current_namespace w) w.

(** The world after [SearchServiceStub('search', index_file)]. *)
Definition built (index_file : value) (w : World) : World :=
  snd (SearchServiceStub (VStr "search") index_file w).

(** An instance to which a datastore location was attached from outside
    the class. *)
Definition located (location : string) (w : World) : World :=
  set_attrs <[private "__datastore_location" := VStr location]> w.

(** An index, its handle, and a cache that holds it. *)
Definition books : IndexSpec := {| spec_namespace := Some "shop"; spec_name := "books" |}.
Definition books_index : SimpleIndex := {| index_id := 0; index_spec_of := books |}.
Definition saved_indexes : gmap string (gmap string SimpleIndex) :=
  {[ "shop" := {[ "books" := books_index ]} ]}.

(** Two more index specifications, without a namespace. *)
Definition journals : IndexSpec :=
  {| spec_namespace := None; spec_name := "journals" |}.

Definition books_here : IndexSpec :=
  {| spec_namespace := None; spec_name := "books" |}.

(** What happens to the instance between two lookups. *)
Definition history : list (call TextMessage TextMessage) :=
  [ Call_GetIndex journals true;
    Call_Read;
    Call_Service "Search" {| text := "a query" |} {| text := "" |};
    Environment ∅ echo_server "shop";
    Call_GetIndex journals false ].


(** A server that cannot be reached. *)
Definition failing_server (e : exn) (c : SendCommand)
    : outcome (option ApiResponse) := Raise e.

(** A reply whose payload is not an encoding. *)
Definition garbled : ApiResponse :=
  {| response_ := Some "!not an encoding";
     application_error_ := None;
     exception_ := None |}.

End Sample.

(** * Properties *)

Arguments mangle : simpl never.
Arguments private : simpl never.

(** ** Names and attributes *)

(** The module imports neither [pickle] nor [datastore_errors]. *)
Lemma pickle_unbound {S} (s : S) :
  global_name "pickle" s = (Raise (NameError "pickle"), s).
Proof. reflexivity. Qed.

Lemma datastore_errors_unbound {S} (s : S) :
  global_name "datastore_errors" s = (Raise (NameError "datastore_errors"), s).
Proof. reflexivity. Qed.

Lemma private_inj (a b : string) : private a = private b -> a = b.
Proof. unfold private, mangle. cbn. intros H. injection H. done. Qed.

(** ** The round trip, case by case *)

Section Round_trip.

Context {Req Resp : Type} `{!ProtocolMessage Req} `{!ProtocolMessage Resp}.

Lemma RemoteSend_unfold (request : Req) (method : string) (w : World)
    (response : Resp) :
  _RemoteSend request method (w, response) =
  match attrs w !! private "__datastore_location" with
  | None =>
      (Raise (AttributeError (private "__datastore_location")), (w, response))
  | Some location =>
      let c := command request method location in
      let w1 := add_sent c w in
      match server w c with
      | Blocks => (Blocks, (w1, response))
      | Raise e => (Raise e, (w1, response))
      | Ok None => (Raise (NameError "datastore_errors"), (w1, response))
      | Ok (Some reply) =>
          match response_ reply with
          | None => (Raise (NameError "datastore_errors"), (w1, response))
          | Some payload =>
              match application_error_ reply with
              | Some error_pb =>
                  (Raise (ApplicationError (code_ error_pb) (detail_ error_pb)),
                   (add_log (Error (detail_ error_pb) []) w1, response))
              | None =>
                  match exception_ reply with
                  | Some e => (Raise e, (w1, response))
                  | None =>
                      (fst (ParseFromString payload response),
                       (w1, snd (ParseFromString payload response)))
                  end
              end
          end
      end
  end.
Proof.
  unfold _RemoteSend, bind, on_world, on_response, getattr, sendCommand,
    raise_no_response, logging_error, raise, command.
  cbn.
  destruct (attrs w !! private "__datastore_location") as [location|]; [|reflexivity].
  cbn.
  destruct (server w _) as [[reply|]|e|]; try reflexivity.
  destruct (response_ reply) as [payload|]; [|reflexivity].
  destruct (application_error_ reply) as [error_pb|]; [reflexivity|].
  destruct (exception_ reply) as [e|]; [reflexivity|].
  cbn. destruct (ParseFromString payload response). reflexivity.
Qed.

End Round_trip.

(** ** Reading the index file *)

Lemma unlock_lock (w : World) :
  attrs w !! private "__index_file_lock" = Some (VLock false) ->
  unlock (lock w) = w.
Proof.
  intros L. destruct w as [a fs l st srv ns n]. unfold unlock, lock, set_attrs.
  cbn in *. f_equal. rewrite insert_insert_eq. by apply insert_id.
Qed.

Lemma unlock_log_lock (r : log_record) (w : World) :
  attrs w !! private "__index_file_lock" = Some (VLock false) ->
  unlock (add_log r (lock w)) = add_log r w.
Proof.
  intros L. destruct w as [a fs l st srv ns n].
  unfold unlock, lock, add_log, set_attrs.
  cbn in *. f_equal. rewrite insert_insert_eq. by apply insert_id.
Qed.

(** The suite under [try:] returns nothing: it falls out of the suite
    after a warning when there is no such file, and raises
    otherwise. *)
Lemma ReadFromFile_try_unfold (w : World) :
  _ReadFromFile_try w =
  match attrs w !! private "__index_file" with
  | None => (Raise (AttributeError (private "__index_file")), w)
  | Some (VStr p) =>
      match files w !! p with
      | Some _ => (Raise (NameError "pickle"), w)
      | None =>
          if has_NUL p then (Raise TypeError, w)
          else (Ok None, add_log (could_not_read (VStr p)) w)
      end
  | Some _ => (Raise TypeError, w)
  end.
Proof.
  unfold _ReadFromFile_try, bind, getattr, os_path_isfile, logging_warning, raise.
  cbn.
  destruct (attrs w !! private "__index_file") as [[| |p| |]|] eqn:E;
    try reflexivity.
  cbn. destruct (files w !! p); cbn; [reflexivity|].
  destruct (has_NUL p); cbn; [reflexivity|].
  rewrite E. reflexivity.
Qed.

(** Building the tuple after [except] raises, whatever is being
    handled. *)
Lemma ReadFromFile_except_raises (w : World) :
  _ReadFromFile_except w = (Raise (NameError "pickle"), w).
Proof. reflexivity. Qed.

Lemma ReadFromFile_unfold (w : World) :
  _ReadFromFile w =
  match attrs w !! private "__index_file_lock" with
  | None => (Raise (AttributeError (private "__index_file_lock")), w)
  | Some (VLock false) =>
      match attrs w !! private "__index_file" with
      | Some (VStr p) =>
          match files w !! p with
          | Some _ => (Raise (NameError "pickle"), unlock (lock w))
          | None =>
              if has_NUL p then (Raise (NameError "pickle"), unlock (lock w))
              else (Ok ∅, unlock (add_log (could_not_read (VStr p)) (lock w)))
          end
      | _ => (Raise (NameError "pickle"), unlock (lock w))
      end
  | Some (VLock true) => (Blocks, w)
  | Some _ => (Raise (AttributeError "acquire"), w)
  end.
Proof.
  unfold _ReadFromFile, acquire. unfold bind at 1 2. unfold getattr at 1.
  destruct (attrs w !! private "__index_file_lock") as [[| | | |[]]|] eqn:L;
    try reflexivity.
  unfold setattr at 1. fold (lock w).
  unfold bind, try_finally, try_except.
  rewrite ReadFromFile_try_unfold.
  assert (F : attrs (lock w) !! private "__index_file"
              = attrs w !! private "__index_file").
  { unfold lock. cbn. apply lookup_insert_ne.
    intros H. apply private_inj in H. discriminate. }
  assert (R : forall w', attrs w' = attrs (lock w) ->
              release (private "__index_file_lock") w' = (Ok tt, unlock w')).
  { intros w' H. unfold release, bind, getattr. rewrite H. unfold lock. cbn.
    rewrite lookup_insert_eq. reflexivity. }
  rewrite F.
  destruct (attrs w !! private "__index_file") as [[| |p| |]|] eqn:E;
    try (rewrite ReadFromFile_except_raises, R by reflexivity; reflexivity).
  destruct (files (lock w) !! p) eqn:Ef; unfold lock in Ef; cbn in Ef; rewrite Ef.
  - rewrite ReadFromFile_except_raises, R by reflexivity. reflexivity.
  - destruct (has_NUL p).
    + rewrite ReadFromFile_except_raises, R by reflexivity. reflexivity.
    + rewrite R by reflexivity. reflexivity.
Qed.

(** With the lock free and a path in [index_file], [_ReadFromFile] has
    two outcomes. *)
Lemma ReadFromFile_existing (w : World) (p : string) (f : file) :
  attrs w !! private "__index_file_lock" = Some (VLock false) ->
  attrs w !! private "__index_file" = Some (VStr p) ->
  files w !! p = Some f ->
  _ReadFromFile w = (Raise (NameError "pickle"), w).
Proof.
  intros L F E. rewrite ReadFromFile_unfold, L, F, E.
  by rewrite unlock_lock.
Qed.

Lemma ReadFromFile_missing (w : World) (p : string) :
  attrs w !! private "__index_file_lock" = Some (VLock false) ->
  attrs w !! private "__index_file" = Some (VStr p) ->
  files w !! p = None ->
  has_NUL p = false ->
  _ReadFromFile w = (Ok ∅, add_log (could_not_read (VStr p)) w).
Proof.
  intros L F E N. rewrite ReadFromFile_unfold, L, F, E, N.
  by rewrite unlock_log_lock.
Qed.

(** What [_ReadFromFile] returns is always the empty dictionary. *)
Lemma ReadFromFile_returns_empty (w w' : World)
    (d : gmap string (gmap string SimpleIndex)) :
  _ReadFromFile w = (Ok d, w') -> d = ∅.
Proof.
  rewrite ReadFromFile_unfold.
  destruct (attrs w !! private "__index_file_lock") as [[| | | |[]]|];
    try discriminate.
  destruct (attrs w !! private "__index_file") as [[| |p| |]|];
    try discriminate.
  destruct (files w !! p); [discriminate|].
  destruct (has_NUL p); [discriminate|].
  intros H. by injection H.
Qed.

Lemma Read_unfold (w : World) :
  Read w =
  match attrs w !! private "__index_file" with
  | None => (Raise (AttributeError (private "__index_file")), w)
  | Some index_file =>
      if truthy index_file then
        match _ReadFromFile w with
        | (Ok _, w') => (Ok tt, w')
        | (Raise e, w') => (Raise e, w')
        | (Blocks, w') => (Blocks, w')
        end
      else (Ok tt, w)
  end.
Proof.
  unfold Read, bind, getattr.
  destruct (attrs w !! private "__index_file") as [index_file|]; [|reflexivity].
  destruct (truthy index_file); [|reflexivity]. cbn.
  destruct (_ReadFromFile w) as [[d| |] w'] eqn:E; try reflexivity.
  apply ReadFromFile_returns_empty in E. subst d. reflexivity.
Qed.

(** ** The cache of index handles *)

Lemma GetNamespace_resolve (index_spec : IndexSpec) (w : World) :
  _GetNamespace (spec_namespace index_spec) w = (Ok (resolve index_spec w), w).
Proof. unfold resolve. destruct (spec_namespace index_spec); reflexivity. Qed.

Lemma GetIndex_unfold (index_spec : IndexSpec) (create : bool) (w : World) :
  _GetIndex index_spec create w =
  let namespace := resolve index_spec w in
  let name := spec_name index_spec in
  match attrs w !! private "__indexes" with
  | None => (Raise (AttributeError (private "__indexes")), w)
  | Some (VDict indexes) =>
      match indexes !! namespace with
      | Some inner =>
          match inner !! name with
          | Some index => (Ok (Some index), w)
          | None =>
              if create then
                (Ok (Some (new_index index_spec w)),
                 with_indexes
                   (<[namespace := <[name := new_index index_spec w]> inner]> indexes)
                   (bump_next_id w))
              else (Ok None, w)
          end
      | None =>
          if create then
            (Ok (Some (new_index index_spec w)),
             with_indexes
               (<[namespace := {[name := new_index index_spec w]}]> indexes)
               (bump_next_id w))
          else (Ok None, with_indexes (<[namespace := ∅]> indexes) w)
      end
  | Some _ => (Raise (AttributeError "setdefault"), w)
  end.
Proof.
  unfold _GetIndex. unfold bind at 1. rewrite GetNamespace_resolve.
  unfold bind at 1. unfold getattr_dict at 1. unfold bind at 1. unfold getattr at 1.
  cbn zeta.
  destruct (attrs w !! private "__indexes") as [[| | |indexes|]|] eqn:I;
    try reflexivity.
  unfold ret at 1.
  destruct (indexes !! resolve index_spec w) as [inner|] eqn:N.
  - unfold bind at 1. unfold ret at 1.
    destruct (inner !! spec_name index_spec) as [index|] eqn:E; [reflexivity|].
    destruct create; [|reflexivity].
    unfold bind, SimpleIndex_new, getattr_dict, getattr, bind. cbn.
    rewrite I. unfold ret at 1. rewrite N. reflexivity.
  - unfold bind at 1. unfold bind at 1. unfold setattr at 1.
    unfold ret at 1. rewrite lookup_empty.
    destruct create; [|reflexivity].
    unfold bind, SimpleIndex_new, getattr_dict, getattr, bind. cbn.
    rewrite lookup_insert_eq. unfold ret at 1. rewrite lookup_insert_eq.
    unfold with_indexes, set_attrs, bump_next_id, setattr. cbn.
    rewrite !insert_insert_eq. reflexivity.
Qed.

(** A handle that is cached is what [_GetIndex] returns, and the call
    changes nothing. *)
Lemma GetIndex_cached (index_spec : IndexSpec) (create : bool) (w : World)
    (h : SimpleIndex) :
  cached w (resolve index_spec w) (spec_name index_spec) = Some h ->
  _GetIndex index_spec create w = (Ok (Some h), w).
Proof.
  unfold cached, indexes_of. rewrite GetIndex_unfold. cbn zeta.
  destruct (attrs w !! private "__indexes") as [[| | |indexes|]|];
    try discriminate.
  destruct (indexes !! resolve index_spec w) as [inner|]; [|discriminate].
  intros ->. reflexivity.
Qed.

Lemma cached_with_indexes (d : gmap string (gmap string SimpleIndex))
    (w : World) (namespace name : string) :
  cached (with_indexes d w) namespace name =
  match d !! namespace with
  | Some inner => inner !! name
  | None => None
  end.
Proof.
  unfold cached, indexes_of, with_indexes. cbn.
  by rewrite lookup_insert_eq.
Qed.

(** The handle that [_GetIndex] returns is cached afterwards. *)
Lemma GetIndex_stores (index_spec : IndexSpec) (create : bool) (w w' : World)
    (h : SimpleIndex) :
  _GetIndex index_spec create w = (Ok (Some h), w') ->
  cached w' (resolve index_spec w) (spec_name index_spec) = Some h.
Proof.
  rewrite GetIndex_unfold. cbn zeta.
  destruct (attrs w !! private "__indexes") as [[| | |indexes|]|] eqn:I;
    try discriminate.
  destruct (indexes !! resolve index_spec w) as [inner|] eqn:N.
  - destruct (inner !! spec_name index_spec) as [index|] eqn:E.
    + intros H. injection H as -> <-.
      unfold cached, indexes_of. by rewrite I, N.
    + destruct create; [|discriminate].
      intros H. injection H as <- <-.
      rewrite cached_with_indexes. by rewrite !lookup_insert_eq.
  - destruct create; [|discriminate].
    intros H. injection H as <- <-.
    rewrite cached_with_indexes. rewrite lookup_insert_eq.
    by rewrite lookup_singleton_eq.
Qed.

(** [_GetIndex] never replaces or drops a handle that is cached. *)
Lemma GetIndex_keeps (index_spec : IndexSpec) (create : bool) (w : World)
    (namespace name : string) (h : SimpleIndex) :
  cached w namespace name = Some h ->
  cached (snd (_GetIndex index_spec create w)) namespace name = Some h.
Proof.
  intros C. rewrite GetIndex_unfold. cbn zeta.
  assert (C' := C). unfold cached, indexes_of in C'.
  destruct (attrs w !! private "__indexes") as [[| | |indexes|]|] eqn:I;
    try discriminate.
  destruct (indexes !! namespace) as [cell|] eqn:Nh; [|discriminate].
  destruct (indexes !! resolve index_spec w) as [inner|] eqn:N.
  - destruct (inner !! spec_name index_spec) as [index|] eqn:E; [exact C|].
    destruct create; [|exact C]. cbn.
    rewrite cached_with_indexes.
    destruct (decide (resolve index_spec w = namespace)) as [Hn|Hn].
    + rewrite Hn, lookup_insert_eq. rewrite Hn, Nh in N. injection N as ->.
      destruct (decide (spec_name index_spec = name)) as [Hm|Hm].
      * rewrite Hm in E. congruence.
      * by rewrite lookup_insert_ne.
    + rewrite lookup_insert_ne, Nh by done. exact C'.
  - assert (resolve index_spec w <> namespace) as Hn by congruence.
    destruct create; cbn; rewrite cached_with_indexes;
      rewrite lookup_insert_ne, Nh by done; exact C'.
Qed.

(** ** What a call leaves alone *)

Lemma frame_refl (written : list string) (w : World) : frame written w w.
Proof. by repeat split. Qed.

Lemma frame_insert (written : list string) (a : string) (v : value) (w w' : World) :
  a ∈ written -> frame written w w' ->
  frame written w (set_attrs <[a := v]> w').
Proof.
  intros Ha (Hattrs & Hfiles & Hserver & Hns). repeat split; try done.
  intros b Hb. cbn. rewrite lookup_insert_ne; [by apply Hattrs|].
  intros ->. contradiction.
Qed.

Lemma frame_weaken (small large : list string) (w w' : World) :
  small ⊆ large -> frame small w w' -> frame large w w'.
Proof.
  intros Hsub (Hattrs & Hrest). split; [|exact Hrest].
  intros a Ha. apply Hattrs. intros Hin. apply Ha, Hsub, Hin.
Qed.

Lemma ReadFromFile_frame (w : World) :
  frame [private "__index_file_lock"] w (snd (_ReadFromFile w))
  /\ sent (snd (_ReadFromFile w)) = sent w
  /\ next_id (snd (_ReadFromFile w)) = next_id w.
Proof.
  rewrite ReadFromFile_unfold.
  assert (Hl : private "__index_file_lock" ∈ [private "__index_file_lock"])
    by apply list_elem_of_here.
  assert (Hu : frame [private "__index_file_lock"] w (unlock (lock w))).
  { apply frame_insert; [done|]. apply frame_insert; [done|]. apply frame_refl. }
  assert (Hv : forall r, frame [private "__index_file_lock"] w
                 (unlock (add_log r (lock w)))).
  { intros r. apply frame_insert; [done|].
    change (add_log r (lock w)) with (lock (add_log r w)).
    apply frame_insert; [done|]. by repeat split. }
  destruct (attrs w !! private "__index_file_lock") as [[| | | |[]]|];
    try (split; [apply frame_refl|done]).
  destruct (attrs w !! private "__index_file") as [[| |p| |]|];
    try (split; [exact Hu|done]).
  destruct (files w !! p); [split; [done|done]|].
  destruct (has_NUL p); (split; [done|done]).
Qed.

Lemma Read_frame (w : World) :
  frame [private "__index_file_lock"] w (snd (Read w))
  /\ sent (snd (Read w)) = sent w
  /\ next_id (snd (Read w)) = next_id w.
Proof.
  rewrite Read_unfold.
  destruct (attrs w !! private "__index_file") as [index_file|];
    [|split; [apply frame_refl|done]].
  destruct (truthy index_file); [|split; [apply frame_refl|done]].
  pose proof (ReadFromFile_frame w) as H.
  destruct (_ReadFromFile w) as [[d|e|] w']; exact H.
Qed.

Lemma GetIndex_frame (index_spec : IndexSpec) (create : bool) (w : World) :
  frame [private "__indexes"] w (snd (_GetIndex index_spec create w))
  /\ sent (snd (_GetIndex index_spec create w)) = sent w.
Proof.
  rewrite GetIndex_unfold. cbn zeta.
  assert (Hi : private "__indexes" ∈ [private "__indexes"])
    by apply list_elem_of_here.
  assert (Hw : forall d, frame [private "__indexes"] w (with_indexes d w)).
  { intros d. apply frame_insert; [done|]. apply frame_refl. }
  assert (Hb : forall d, frame [private "__indexes"] w
                 (with_indexes d (bump_next_id w))).
  { intros d. apply frame_insert; [done|]. by repeat split. }
  destruct (attrs w !! private "__indexes") as [[| | |indexes|]|];
    try (split; [apply frame_refl|done]).
  destruct (indexes !! resolve index_spec w) as [inner|].
  - destruct (inner !! spec_name index_spec);
      [split; [apply frame_refl|done]|].
    destruct create; (split; [cbn; first [apply Hb | apply frame_refl]|done]).
  - destruct create; (split; [cbn; first [apply Hb | apply Hw]|done]).
Qed.

Lemma GetNamespace_world (namespace : option string) (w : World) :
  snd (_GetNamespace namespace w) = w.
Proof. destruct namespace; reflexivity. Qed.

Section Calls.

Context {Req Resp : Type} `{!ProtocolMessage Req} `{!ProtocolMessage Resp}.

(** [_RemoteSend] writes no attribute and no file; it allocates
    nothing. *)
Lemma RemoteSend_frame (request : Req) (method : string) (w : World)
    (response : Resp) :
  let w' := fst (snd (_RemoteSend request method (w, response))) in
  attrs w' = attrs w /\ files w' = files w /\ server w' = server w
  /\ current_namespace w' = current_namespace w /\ next_id w' = next_id w.
Proof.
  rewrite RemoteSend_unfold.
  destruct (attrs w !! private "__datastore_location") as [location|]; [|done].
  cbn zeta.
  destruct (server w _) as [[reply|]|e|]; try done.
  destruct (response_ reply) as [payload|]; [|done].
  destruct (application_error_ reply) as [error_pb|]; [done|].
  destruct (exception_ reply) as [e|]; done.
Qed.

(** Every entry of the class dictionary under a [_Dynamic_] name is
    [_RemoteSend] at the name that follows the prefix. *)
Lemma service_RemoteSend (name : string) (f : Req -> M (World * Resp) unit) :
  service name = Some f -> f = fun request => _RemoteSend request name.
Proof.
  unfold service, dynamic_methods. cbn [lookup_method].
  repeat match goal with
  | |- context [String.eqb ?a ?b] =>
      destruct (String.eqb_spec a b) as [E|_];
      [injection E as E; cbv in E; subst name;
       intros H; injection H as <-; reflexivity|]
  end.
  discriminate.
Qed.

Lemma service_services (name : string) :
  is_Some (service (Req := Req) (Resp := Resp) name) <-> name ∈ services.
Proof.
  unfold service, dynamic_methods. cbn [lookup_method].
  change services with
    ["IndexDocument"; "DeleteDocument"; "ListIndexes"; "ListDocuments"; "Search"].
  rewrite !elem_of_cons, elem_of_nil.
  repeat match goal with
  | |- context [String.eqb ?a ?b] =>
      let E := fresh "E" in
      destruct (String.eqb_spec a b) as [E|E];
      [injection E as E; cbv in E; subst name;
       split; intros _; [repeat (first [left; reflexivity | right]) | by eexists]|]
  end.
  split; [intros H; by apply is_Some_None in H|].
  intros [->|[->|[->|[->|[->|[]]]]]]; exfalso;
    match goal with E : _ <> _ |- _ => by apply E end.
Qed.

Lemma after_frame (c : call Req Resp) (w : World) :
  forall a, a ∉ [private "__indexes"; private "__index_file_lock"] ->
  attrs (after c w) !! a = attrs w !! a.
Proof.
  intros a Ha.
  assert (H1 : forall w', frame [private "__index_file_lock"] w w' ->
               attrs w' !! a = attrs w !! a).
  { intros w' Hf.
    apply (frame_weaken _ [private "__indexes"; private "__index_file_lock"]) in Hf;
      [by apply Hf|].
    intros x Hx. apply list_elem_of_singleton in Hx. subst x.
    rewrite !elem_of_cons. auto. }
  assert (H2 : forall w', frame [private "__indexes"] w w' ->
               attrs w' !! a = attrs w !! a).
  { intros w' Hf.
    apply (frame_weaken _ [private "__indexes"; private "__index_file_lock"]) in Hf;
      [by apply Hf|].
    intros x Hx. apply list_elem_of_singleton in Hx. subst x.
    rewrite !elem_of_cons. auto. }
  destruct c as [namespace|index_spec create| | | |request response method
                |name request response|fs srv ns]; cbn [after].
  - by rewrite GetNamespace_world.
  - apply H2, GetIndex_frame.
  - reflexivity.
  - apply H1, ReadFromFile_frame.
  - apply H1, Read_frame.
  - by destruct (RemoteSend_frame request method w response) as [-> _].
  - destruct (service name) as [f|] eqn:S; [|done].
    apply service_RemoteSend in S. subst f.
    by destruct (RemoteSend_frame request name w response) as [-> _].
  - reflexivity.
Qed.

(** Only [_GetIndex] writes the cache. *)
Lemma after_indexes (c : call Req Resp) (w : World) :
  (forall index_spec create, c <> Call_GetIndex index_spec create) ->
  attrs (after c w) !! private "__indexes" = attrs w !! private "__indexes".
Proof.
  intros Hc.
  assert (H1 : forall w', frame [private "__index_file_lock"] w w' ->
               attrs w' !! private "__indexes" = attrs w !! private "__indexes").
  { intros w' Hf. apply Hf. rewrite elem_of_cons, elem_of_nil.
    intros [H|[]]. apply private_inj in H. discriminate. }
  destruct c as [namespace|index_spec create| | | |request response method
                |name request response|fs srv ns]; cbn [after].
  - by rewrite GetNamespace_world.
  - by destruct (Hc index_spec create).
  - reflexivity.
  - apply H1, ReadFromFile_frame.
  - apply H1, Read_frame.
  - by destruct (RemoteSend_frame request method w response) as [-> _].
  - destruct (service name) as [f|] eqn:S; [|done].
    apply service_RemoteSend in S. subst f.
    by destruct (RemoteSend_frame request name w response) as [-> _].
  - reflexivity.
Qed.

(** No method of the stub writes a file. *)
Lemma after_files (c : call Req Resp) (w : World) :
  files (after c w) =
  match c with
  | Environment fs _ _ => fs
  | _ => files w
  end.
Proof.
  destruct c as [namespace|index_spec create| | | |request response method
                |name request response|fs srv ns]; cbn [after].
  - by rewrite GetNamespace_world.
  - apply GetIndex_frame.
  - reflexivity.
  - apply ReadFromFile_frame.
  - apply Read_frame.
  - apply RemoteSend_frame.
  - destruct (service name) as [f|] eqn:S; [|done].
    apply service_RemoteSend in S. subst f. apply RemoteSend_frame.
  - reflexivity.
Qed.

(** Without a datastore location nothing is handed to the network. *)
Lemma after_sent (c : call Req Resp) (w : World) :
  attrs w !! private "__datastore_location" = None ->
  sent (after c w) = sent w.
Proof.
  intros Hl.
  destruct c as [namespace|index_spec create| | | |request response method
                |name request response|fs srv ns]; cbn [after].
  - by rewrite GetNamespace_world.
  - apply GetIndex_frame.
  - reflexivity.
  - apply ReadFromFile_frame.
  - apply Read_frame.
  - by rewrite RemoteSend_unfold, Hl.
  - destruct (service name) as [f|] eqn:S; [|done].
    apply service_RemoteSend in S. subst f. by rewrite RemoteSend_unfold, Hl.
  - reflexivity.
Qed.

End Calls.

(** ** Construction *)

Lemma SearchServiceStub_unfold (service_name index_file : value) (w : World) :
  SearchServiceStub service_name index_file w = Read (fresh service_name index_file w).
Proof. reflexivity. Qed.

Lemma fresh_index_file (service_name index_file : value) (w : World) :
  attrs (fresh service_name index_file w) !! private "__index_file" = Some index_file.
Proof. reflexivity. Qed.

Lemma fresh_lock (service_name index_file : value) (w : World) :
  attrs (fresh service_name index_file w) !! private "__index_file_lock"
  = Some (VLock false).
Proof. reflexivity. Qed.

Lemma fresh_indexes (service_name index_file : value) (w : World) :
  attrs (fresh service_name index_file w) !! private "__indexes" = Some (VDict ∅).
Proof. reflexivity. Qed.

(** [__init__] assigns no datastore location. *)
Lemma fresh_unlocated (service_name index_file : value) (w : World) :
  attrs (fresh service_name index_file w) !! private "__datastore_location" = None.
Proof. reflexivity. Qed.

Lemma private_not_written (a : string) :
  a <> "__indexes" -> a <> "__index_file_lock" ->
  private a ∉ [private "__indexes"; private "__index_file_lock"].
Proof.
  intros H1 H2. rewrite !elem_of_cons, elem_of_nil.
  intros [H|[H|[]]]; apply private_inj in H; contradiction.
Qed.

Lemma built_unlocated (service_name index_file : value) (w : World) :
  attrs (snd (SearchServiceStub service_name index_file w))
    !! private "__datastore_location" = None.
Proof.
  rewrite SearchServiceStub_unfold.
  destruct (Read_frame (fresh service_name index_file w)) as ((Ha & _) & _).
  rewrite Ha; [apply fresh_unlocated|].
  rewrite list_elem_of_singleton. intros H. apply private_inj in H. discriminate.
Qed.

Lemma built_sent (service_name index_file : value) (w : World) :
  sent (snd (SearchServiceStub service_name index_file w)) = sent w.
Proof.
  rewrite SearchServiceStub_unfold.
  by destruct (Read_frame (fresh service_name index_file w)) as (_ & -> & _).
Qed.

Lemma built_files (service_name index_file : value) (w : World) :
  files (snd (SearchServiceStub service_name index_file w)) = files w.
Proof.
  rewrite SearchServiceStub_unfold.
  by destruct (Read_frame (fresh service_name index_file w)) as ((_ & -> & _) & _).
Qed.

Section Histories.

Context {Req Resp : Type} `{!ProtocolMessage Req} `{!ProtocolMessage Resp}.

Lemma after_all_cons (c : call Req Resp) (calls : list (call Req Resp))
    (w : World) :
  after_all (c :: calls) w = after_all calls (after c w).
Proof. reflexivity. Qed.

(** No history of calls gives the instance a datastore location, and
    none hands anything to the network. *)
Lemma after_all_unlocated (calls : list (call Req Resp)) (w : World) :
  attrs w !! private "__datastore_location" = None ->
  attrs (after_all calls w) !! private "__datastore_location" = None
  /\ sent (after_all calls w) = sent w.
Proof.
  revert w. induction calls as [|c calls IH]; intros w Hw; [done|].
  rewrite after_all_cons.
  assert (Hc : attrs (after c w) !! private "__datastore_location" = None).
  { rewrite after_frame; [done|]. by apply private_not_written. }
  destruct (IH _ Hc) as [-> ->]. split; [done|]. by apply after_sent.
Qed.

Lemma after_keeps_cached (c : call Req Resp) (w : World)
    (namespace name : string) (h : SimpleIndex) :
  cached w namespace name = Some h ->
  cached (after c w) namespace name = Some h.
Proof.
  intros C.
  destruct c as [ns|index_spec create| | | |request response method
                |service_name request response|fs srv ns];
    try (unfold cached, indexes_of in *; rewrite after_indexes; [exact C|done]).
  apply GetIndex_keeps, C.
Qed.

Lemma after_all_keeps_cached (calls : list (call Req Resp)) (w : World)
    (namespace name : string) (h : SimpleIndex) :
  cached w namespace name = Some h ->
  cached (after_all calls w) namespace name = Some h.
Proof.
  revert w. induction calls as [|c calls IH]; intros w C; [done|].
  rewrite after_all_cons. by apply IH, after_keeps_cached.
Qed.

End Histories.

(** ** Identity of the handles *)

Lemma GetIndex_allocated (index_spec : IndexSpec) (create : bool) (w : World) :
  allocated w -> allocated (snd (_GetIndex index_spec create w)).
Proof.
  intros A. rewrite GetIndex_unfold. cbn zeta.
  assert (Hc : forall namespace name h, cached w namespace name = Some h ->
                 (index_id h < S (next_id w))%nat).
  { intros namespace name h C. apply A in C. lia. }
  unfold allocated, cached, indexes_of in A, Hc.
  destruct (attrs w !! private "__indexes") as [[| | |indexes|]|] eqn:I;
    try (intros namespace name h; cbn; unfold cached, indexes_of; rewrite I; done).
  assert (Hnew : forall inner namespace name h,
            indexes !! resolve index_spec w = inner ->
            match <[resolve index_spec w :=
                      <[spec_name index_spec := new_index index_spec w]>
                        (default ∅ inner)]> indexes !! namespace with
            | Some cell => cell !! name
            | None => None
            end = Some h ->
            (index_id h < S (next_id w))%nat).
  { intros inner namespace name h Hi.
    destruct (decide (resolve index_spec w = namespace)) as [<-|Hn].
    - rewrite lookup_insert_eq.
      destruct (decide (spec_name index_spec = name)) as [<-|Hm].
      + rewrite lookup_insert_eq. intros [= <-]. cbn. lia.
      + rewrite lookup_insert_ne by done. intros C.
        apply (Hc (resolve index_spec w) name). rewrite Hi.
        destruct inner; [exact C|]. cbn in C. by rewrite lookup_empty in C.
    - rewrite lookup_insert_ne by done. apply Hc. }
  destruct (indexes !! resolve index_spec w) as [inner|] eqn:N.
  - destruct (inner !! spec_name index_spec) as [index|];
      [intros namespace name h; cbn; unfold cached, indexes_of; rewrite I; apply A|].
    destruct create;
      [|intros namespace name h; cbn; unfold cached, indexes_of; rewrite I; apply A].
    intros namespace name h. cbn. rewrite cached_with_indexes.
    apply (Hnew (Some inner)). reflexivity.
  - destruct create; intros namespace name h; cbn; rewrite cached_with_indexes.
    + apply (Hnew None). reflexivity.
    + destruct (decide (resolve index_spec w = namespace)) as [<-|Hn].
      * rewrite lookup_insert_eq, lookup_empty. discriminate.
      * rewrite lookup_insert_ne by done. apply A.
Qed.

(** The handle that [_GetIndex] creates is none of the cached ones. *)
Lemma new_index_fresh (index_spec : IndexSpec) (w : World)
    (namespace name : string) :
  allocated w -> cached w namespace name <> Some (new_index index_spec w).
Proof. intros A C. apply A in C. cbn in C. lia. Qed.

Section Identity.

Context {Req Resp : Type} `{!ProtocolMessage Req} `{!ProtocolMessage Resp}.

Lemma after_next_id (c : call Req Resp) (w : World) :
  (forall index_spec create, c <> Call_GetIndex index_spec create) ->
  next_id (after c w) = next_id w.
Proof.
  intros Hc.
  destruct c as [ns|index_spec create| | | |request response method
                |name request response|fs srv ns]; cbn [after].
  - by rewrite GetNamespace_world.
  - by destruct (Hc index_spec create).
  - reflexivity.
  - apply ReadFromFile_frame.
  - apply Read_frame.
  - apply RemoteSend_frame.
  - destruct (service name) as [f|] eqn:S; [|done].
    apply service_RemoteSend in S. subst f. apply RemoteSend_frame.
  - reflexivity.
Qed.

Lemma after_allocated (c : call Req Resp) (w : World) :
  allocated w -> allocated (after c w).
Proof.
  intros A.
  destruct c as [ns|index_spec create| | | |request response method
                |svc request response|fs srv ns];
    try (intros namespace name h; unfold cached, indexes_of;
         rewrite after_indexes, after_next_id by (intros; discriminate);
         apply A).
  apply GetIndex_allocated, A.
Qed.

Lemma built_allocated (service_name index_file : value) (w : World) :
  allocated (snd (SearchServiceStub service_name index_file w)).
Proof.
  intros namespace name h. unfold cached, indexes_of.
  rewrite SearchServiceStub_unfold.
  destruct (Read_frame (fresh service_name index_file w)) as ((Ha & _) & _).
  rewrite Ha, fresh_indexes; [by rewrite lookup_empty|].
  rewrite list_elem_of_singleton. intros H. apply private_inj in H. discriminate.
Qed.

End Identity.

(** * The statements of the design document *)

(** C8.  When [index_file] names an existing file, constructing the stub
    raises [NameError] for [pickle]: the suite under [try:] raises it at
    [pickle.load], building the tuple after [except] raises it again, so
    nothing is caught or logged.  The cache is left empty, and the lock
    that was taken is free again. *)
Theorem existing_index_file_NameError
    (service_name : value) (p : string) (f : file) (w : World) :
  p <> "" ->
  files w !! p = Some f ->
  let w0 := fresh service_name (VStr p) w in
  SearchServiceStub service_name (VStr p) w = (Raise (NameError "pickle"), w0)
  /\ _ReadFromFile_try (lock w0) = (Raise (NameError "pickle"), lock w0)
  /\ _ReadFromFile_except (lock w0) = (Raise (NameError "pickle"), lock w0)
  /\ attrs (lock w0) !! private "__index_file_lock" = Some (VLock true)
  /\ attrs w0 !! private "__index_file_lock" = Some (VLock false)
  /\ attrs w0 !! private "__indexes" = Some (VDict ∅)
  /\ log w0 = log w.
Proof.
  intros Hp Hf. cbn zeta.
  assert (Ht : truthy (VStr p) = true).
  { cbn. destruct (String.eqb_spec p ""); [contradiction|reflexivity]. }
  repeat split.
  - rewrite SearchServiceStub_unfold, Read_unfold.
    rewrite fresh_index_file, Ht.
    by rewrite (ReadFromFile_existing _ p f).
  - rewrite ReadFromFile_try_unfold.
    change (attrs (lock (fresh service_name (VStr p) w)) !! private "__index_file")
      with (Some (VStr p)).
    change (files (lock (fresh service_name (VStr p) w))) with (files w).
    cbv beta iota. by rewrite Hf.
Qed.

Section Claims.

Context {Req Resp : Type} `{!ProtocolMessage Req} `{!ProtocolMessage Resp}.

(** C3.  On an instance built by the constructor, after any history of
    calls, every service raises [AttributeError] for the attribute
    [_SearchServiceStub__datastore_location]: neither the constructor nor
    any method assigns it.  The call changes nothing, so no data is sent,
    and nothing has ever been sent through the instance. *)
Theorem services_raise_AttributeError
    (service_name index_file : value) (w0 : World)
    (calls : list (call Req Resp)) (name : string)
    (f : Req -> M (World * Resp) unit) (request : Req) (response : Resp) :
  service name = Some f ->
  let w := after_all calls (snd (SearchServiceStub service_name index_file w0)) in
  f request (w, response)
  = (Raise (AttributeError "_SearchServiceStub__datastore_location"), (w, response))
  /\ attrs w !! private "__datastore_location" = None
  /\ sent w = sent w0.
Proof.
  intros S w.
  destruct (after_all_unlocated calls
              (snd (SearchServiceStub service_name index_file w0))
              (built_unlocated service_name index_file w0)) as [Hl Hs].
  fold w in Hl, Hs. apply service_RemoteSend in S. subst f.
  split; [|split; [exact Hl|]].
  - rewrite RemoteSend_unfold, Hl. reflexivity.
  - rewrite Hs. apply built_sent.
Qed.

(** C4, as amended.  [Write] is a no-op: it returns and the world is as
    before.  Neither the constructor nor any method of the stub changes
    a file. *)
Theorem Write_is_a_no_op (w : World) :
  Write w = (Ok tt, w)
  /\ (forall service_name index_file,
        files (snd (SearchServiceStub service_name index_file w)) = files w)
  /\ (forall c : call Req Resp,
        files (after c w)
        = match c with
          | Environment fs _ _ => fs
          | _ => files w
          end).
Proof.
  split; [reflexivity|]. split.
  - intros service_name index_file. apply built_files.
  - intros c. apply after_files.
Qed.

(** C6.  [_GetIndex] resolves the namespace to the one of the index
    specification, or to the current global namespace when that is
    [None], and looks the name up in the dictionary of that namespace.
    A handle that is found is returned and nothing changes; a handle
    that is missing is, with [create], built from the specification,
    stored and returned, and the result is [None] otherwise.  Once a
    handle has been returned, every later call that resolves to the same
    namespace and name returns it, whatever was called in between. *)
Theorem GetIndex_returns_the_cached_handle
    (index_spec index_spec' : IndexSpec) (create create' : bool)
    (w : World) (d : gmap string (gmap string SimpleIndex))
    (calls : list (call Req Resp)) :
  let namespace :=
    match spec_namespace index_spec with
    | Some ns => ns
    | None => current_namespace w
    end in
  let name := spec_name index_spec in
  let found :=
    match d !! namespace with
    | Some inner => inner !! name
    | None => None
    end in
  let w1 := snd (_GetIndex index_spec create w) in
  let w2 := after_all calls w1 in
  attrs w !! private "__indexes" = Some (VDict d) ->
  resolve index_spec' w2 = namespace ->
  spec_name index_spec' = name ->
  _GetNamespace (spec_namespace index_spec) w = (Ok namespace, w)
  /\ fst (_GetIndex index_spec create w)
     = Ok (match found with
           | Some h => Some h
           | None =>
               if create
               then Some {| index_id := next_id w; index_spec_of := index_spec |}
               else None
           end)
  /\ (is_Some found -> w1 = w)
  /\ forall h,
       fst (_GetIndex index_spec create w) = Ok (Some h) ->
       cached w1 namespace name = Some h
       /\ _GetIndex index_spec' create' w2 = (Ok (Some h), w2).
Proof.
  intros namespace name found w1 w2 Hd Hns Hname.
  assert (Hfst : fst (_GetIndex index_spec create w)
     = Ok (match found with
           | Some h => Some h
           | None => if create then Some (new_index index_spec w) else None
           end) /\ (is_Some found -> w1 = w)).
  { subst w1 found. rewrite GetIndex_unfold, Hd. cbn zeta.
    change (resolve index_spec w) with namespace.
    change (spec_name index_spec) with name.
    destruct (d !! namespace) as [inner|].
    - destruct (inner !! name) as [h|]; [done|].
      split; [by destruct create|]. by intros [? ?].
    - split; [by destruct create|]. by intros [? ?]. }
  destruct Hfst as [Hfst Hsame].
  split; [apply GetNamespace_resolve|].
  split; [exact Hfst|]. split; [exact Hsame|].
  intros h Hh.
  assert (C : cached w1 namespace name = Some h).
  { apply (GetIndex_stores index_spec create w). subst w1.
    rewrite <- Hh. apply surjective_pairing. }
  split; [exact C|].
  apply GetIndex_cached. rewrite Hns, Hname.
  by apply after_all_keeps_cached.
Qed.

(** C7.  A call of a service that returns has handed one command to the
    server, carrying the encoded request, and has left in the response
    what parsing the payload of the reply gives; the index cache, the
    files and the allocation counter are as before. *)
Theorem successful_call_parses_the_reply
    (name : string) (f : Req -> M (World * Resp) unit) (request : Req)
    (w w' : World) (response response' : Resp) :
  service name = Some f ->
  f request (w, response) = (Ok tt, (w', response')) ->
  exists location reply payload,
    attrs w !! private "__datastore_location" = Some location
    /\ sc_self (command request name location)
       = {| service_name_ := "search"; method_ := name;
            request_ := Encode request |}
    /\ server w (command request name location) = Ok (Some reply)
    /\ response_ reply = Some payload
    /\ ParseFromString payload response = (Ok tt, response')
    /\ w' = add_sent (command request name location) w
    /\ attrs w' = attrs w /\ files w' = files w /\ log w' = log w
    /\ next_id w' = next_id w.
Proof.
  intros S. apply service_RemoteSend in S. subst f.
  rewrite RemoteSend_unfold.
  destruct (attrs w !! private "__datastore_location") as [location|];
    [|discriminate].
  cbn zeta.
  destruct (server w _) as [[reply|]|e|] eqn:Hsrv; try discriminate.
  destruct (response_ reply) as [payload|] eqn:Hp; [|discriminate].
  destruct (application_error_ reply) as [error_pb|]; [discriminate|].
  destruct (exception_ reply) as [e|]; [discriminate|].
  destruct (ParseFromString payload response) as [r response''] eqn:Hparse.
  cbn. intros H. injection H as -> <- <-.
  exists location, reply, payload. by repeat split.
Qed.


End Claims.

(** * The statements at sample inputs *)

Import Sample.

(** C4.  An instance built with an index file has one handle in its
    cache; after [Write] there is no such file. *)
Lemma Write_leaves_no_file :
  let w := snd (_GetIndex books true (built (VStr "/tmp/search.idx") empty_world)) in
  attrs w !! private "__index_file" = Some (VStr "/tmp/search.idx")
  /\ indexes_of w = Some saved_indexes
  /\ ~ saves_indexes w (snd (Write w)).
Proof.
  intros w. split; [reflexivity|]. split; [reflexivity|].
  intros H. specialize (H "/tmp/search.idx" saved_indexes eq_refl eq_refl).
  discriminate H.
Qed.

(** C1.  On the instance that [SearchServiceStub('search')] builds,
    [_Dynamic_IndexDocument] raises [AttributeError] at the read of the
    datastore location: the request is not sent and the response is not
    filled, although the server would have answered. *)
Theorem IndexDocument_is_not_forwarded :
  let w := built VNone empty_world in
  let request := {| text := "a document" |} in
  let response := {| text := "" |} in
  fst (SearchServiceStub (VStr "search") VNone empty_world) = Ok tt
  /\ _Dynamic_IndexDocument request (w, response)
     = (Raise (AttributeError "_SearchServiceStub__datastore_location"),
        (w, response))
  /\ sent w = []
  /\ forall location,
       server w (command request "IndexDocument" location)
       = Ok (Some {| response_ := Some "IndexDocument";
                     application_error_ := None;
                     exception_ := None |}).
Proof. repeat split. Qed.

(** C2.  Each of the five services is [_RemoteSend] at its own name, and
    on the instance that [SearchServiceStub('search')] builds none of
    them performs a round trip: the call raises [AttributeError] and no
    command is handed to the server. *)
Theorem services_perform_no_round_trip :
  let w := built VNone empty_world in
  let request := {| text := "a request" |} in
  let response := {| text := "" |} in
  services = ["IndexDocument"; "DeleteDocument"; "ListIndexes";
              "ListDocuments"; "Search"]
  /\ Forall
       (fun name =>
          service name = Some (fun request => _RemoteSend request name)
          /\ fst (_RemoteSend request name (w, response))
             = Raise (AttributeError "_SearchServiceStub__datastore_location")
          /\ sent (fst (snd (_RemoteSend request name (w, response)))) = [])
       services.
Proof.
  cbv zeta. split; [reflexivity|].
  change services with
    ["IndexDocument"; "DeleteDocument"; "ListIndexes"; "ListDocuments"; "Search"].
  repeat (apply Forall_cons; split; [repeat split|]).
  by apply Forall_nil.
Qed.

(** C3 at a sample input: [Search] on an instance that was built with
    an index file. *)
Lemma Search_on_built_stub_raises :
  service (Req := TextMessage) (Resp := TextMessage) "Search" = Some _Dynamic_Search
  /\ _Dynamic_Search {| text := "a query" |}
       (built (VStr "/tmp/search.idx") empty_world, {| text := "" |})
     = (Raise (AttributeError "_SearchServiceStub__datastore_location"),
        (built (VStr "/tmp/search.idx") empty_world, {| text := "" |})).
Proof.
  split; [reflexivity|].
  apply (services_raise_AttributeError (VStr "search") (VStr "/tmp/search.idx")
           empty_world [] "Search" _Dynamic_Search).
  reflexivity.
Defined.

(** C5.  With a saved pickle of version 1 in the index file, the
    constructor raises [NameError] and the cache stays empty instead of
    being replaced by the saved mapping; with a pickle of another
    version, [_ReadFromFile] raises [NameError] instead of yielding an
    empty dictionary. *)
Theorem saved_indexes_are_not_loaded :
  let saved := with_files {[ "/tmp/search.idx" := Pickle 1 saved_indexes ]} empty_world in
  let other := with_files {[ "/tmp/search.idx" := Pickle 2 saved_indexes ]} empty_world in
  fst (SearchServiceStub (VStr "search") (VStr "/tmp/search.idx") saved)
  = Raise (NameError "pickle")
  /\ indexes_of (built (VStr "/tmp/search.idx") saved) = Some ∅
  /\ saved_indexes <> ∅
  /\ fst (_ReadFromFile (fresh (VStr "search") (VStr "/tmp/search.idx") other))
     = Raise (NameError "pickle").
Proof.
  cbv zeta. split; [reflexivity|]. split; [reflexivity|]. split; [|reflexivity].
  intros H. apply (f_equal (fun d => d !! "shop")) in H. discriminate H.
Qed.

(** C6 at a sample input: the handle of [books] in the namespace [shop]
    is created, other calls follow and the current namespace becomes
    [shop]; a lookup of [books] without a namespace then returns the
    same handle. *)
Lemma books_handle_is_stable :
  let w := built VNone empty_world in
  let w2 := after_all history (snd (_GetIndex books true w)) in
  fst (_GetIndex books true w) = Ok (Some books_index)
  /\ _GetIndex books_here false w2 = (Ok (Some books_index), w2).
Proof.
  intros w w2.
  destruct (GetIndex_returns_the_cached_handle (Req := TextMessage) (Resp := TextMessage)
              books books_here true false w ∅ history)
    as (_ & H1 & _ & H2); [reflexivity..|].
  split; [exact H1|]. apply (H2 books_index H1).
Defined.

(** C7 at a sample input: an instance that was given a datastore
    location, and a server that answers with the method name. *)
Lemma located_Search_returns_reply :
  let w := located "datastore:8888" (built VNone empty_world) in
  _Dynamic_Search {| text := "a query" |} (w, {| text := "" |})
  = (Ok tt,
     (add_sent (command {| text := "a query" |} "Search" (VStr "datastore:8888")) w,
      {| text := "Search" |}))
  /\ exists location reply payload,
       server w (command {| text := "a query" |} "Search" location) = Ok (Some reply)
       /\ response_ reply = Some payload
       /\ ParseFromString payload {| text := "" |} = (Ok tt, {| text := "Search" |}).
Proof.
  intros w.
  assert (H : _Dynamic_Search {| text := "a query" |} (w, {| text := "" |})
    = (Ok tt,
       (add_sent (command {| text := "a query" |} "Search" (VStr "datastore:8888")) w,
        {| text := "Search" |}))) by reflexivity.
  split; [exact H|].
  destruct (successful_call_parses_the_reply "Search" _Dynamic_Search
              {| text := "a query" |} w _ {| text := "" |} {| text := "Search" |}
              eq_refl H)
    as (location & reply & payload & _ & _ & Hs & Hp & Hparse & _).
  by exists location, reply, payload.
Defined.

(** C8 at a sample input: the index file holds a saved pickle. *)
Lemma saved_pickle_makes_constructor_raise :
  let w := with_files {[ "/tmp/search.idx" := Pickle 1 saved_indexes ]} empty_world in
  files w !! "/tmp/search.idx" = Some (Pickle 1 saved_indexes)
  /\ SearchServiceStub (VStr "search") (VStr "/tmp/search.idx") w
     = (Raise (NameError "pickle"), fresh (VStr "search") (VStr "/tmp/search.idx") w).
Proof.
  intros w. split; [reflexivity|].
  apply (existing_index_file_NameError (VStr "search") "/tmp/search.idx"
           (Pickle 1 saved_indexes) w).
  - discriminate.
  - reflexivity.
Defined.



(** * Further properties of the code *)

(** ** More on the cache of index handles *)

(** [_GetIndex] changes no entry but the one it is asked for. *)
Lemma GetIndex_elsewhere (index_spec : IndexSpec) (create : bool) (w : World)
    (namespace name : string) :
  (namespace, name) <> (resolve index_spec w, spec_name index_spec) ->
  cached (snd (_GetIndex index_spec create w)) namespace name
  = cached w namespace name.
Proof.
  intros Hk. rewrite GetIndex_unfold. cbn zeta.
  destruct (attrs w !! private "__indexes") as [[| | |indexes|]|] eqn:I;
    try reflexivity.
  assert (Hold : cached w namespace name
                 = match indexes !! namespace with
                   | Some inner => inner !! name
                   | None => None
                   end).
  { unfold cached, indexes_of. by rewrite I. }
  assert (Hnew : forall inner h,
            indexes !! resolve index_spec w = inner ->
            match <[resolve index_spec w :=
                      <[spec_name index_spec := h]> (default ∅ inner)]> indexes
                    !! namespace with
            | Some cell => cell !! name
            | None => None
            end = cached w namespace name).
  { intros inner h Hi. rewrite Hold.
    destruct (decide (resolve index_spec w = namespace)) as [<-|Hn].
    - rewrite lookup_insert_eq.
      destruct (decide (spec_name index_spec = name)) as [<-|Hm];
        [by destruct Hk|].
      rewrite lookup_insert_ne by done. rewrite Hi.
      destruct inner; [done|]. apply lookup_empty.
    - by rewrite lookup_insert_ne. }
  destruct (indexes !! resolve index_spec w) as [inner|] eqn:N.
  - destruct (inner !! spec_name index_spec) as [index|]; [reflexivity|].
    destruct create; [|reflexivity].
    cbn. rewrite cached_with_indexes. apply (Hnew (Some inner)). reflexivity.
  - destruct create; cbn; rewrite cached_with_indexes.
    + apply (Hnew None). reflexivity.
    + rewrite Hold.
      destruct (decide (resolve index_spec w = namespace)) as [<-|Hn].
      * by rewrite lookup_insert_eq, lookup_empty, N.
      * by rewrite lookup_insert_ne.
Qed.

(** What [_GetIndex] returns for the entry it is asked for. *)
Lemma GetIndex_here (index_spec : IndexSpec) (create : bool) (w : World)
    (h : SimpleIndex) :
  cached (snd (_GetIndex index_spec create w))
    (resolve index_spec w) (spec_name index_spec) = Some h ->
  cached w (resolve index_spec w) (spec_name index_spec) = Some h
  \/ h = new_index index_spec w.
Proof.
  destruct (cached w (resolve index_spec w) (spec_name index_spec)) as [h'|] eqn:C.
  - rewrite (GetIndex_cached index_spec create w h' C). cbn. rewrite C.
    intros [= <-]. by left.
  - rewrite GetIndex_unfold. cbn zeta.
    unfold cached, indexes_of in C.
    destruct (attrs w !! private "__indexes") as [[| | |indexes|]|] eqn:I;
      try (cbn; unfold cached, indexes_of; rewrite I; discriminate).
    destruct (indexes !! resolve index_spec w) as [inner|] eqn:N.
    + rewrite C. destruct create; cbn.
      * rewrite cached_with_indexes, !lookup_insert_eq. intros [= <-]. by right.
      * unfold cached, indexes_of. rewrite I, N, C. discriminate.
    + destruct create; cbn; rewrite cached_with_indexes, lookup_insert_eq.
      * rewrite lookup_singleton_eq. intros [= <-]. by right.
      * rewrite lookup_empty. discriminate.
Qed.

Lemma GetIndex_distinct (index_spec : IndexSpec) (create : bool) (w : World) :
  allocated w -> distinct w ->
  distinct (snd (_GetIndex index_spec create w)).
Proof.
  intros A D namespace name namespace' name' h C C'.
  destruct (decide ((namespace, name) = (resolve index_spec w, spec_name index_spec)))
    as [[= -> ->]|Hk];
  destruct (decide ((namespace', name') = (resolve index_spec w, spec_name index_spec)))
    as [[= -> ->]|Hk']; [done| | |].
  - rewrite GetIndex_elsewhere in C' by done.
    apply GetIndex_here in C as [C| ->].
    + apply (D _ _ _ _ h C C').
    + by apply new_index_fresh in C'.
  - rewrite GetIndex_elsewhere in C by done.
    apply GetIndex_here in C' as [C'| ->].
    + apply (D _ _ _ _ h C C').
    + by apply new_index_fresh in C.
  - rewrite GetIndex_elsewhere in C, C' by done. apply (D _ _ _ _ h C C').
Qed.

Section More_histories.

Context {Req Resp : Type} `{!ProtocolMessage Req} `{!ProtocolMessage Resp}.

Lemma after_distinct (c : call Req Resp) (w : World) :
  allocated w -> distinct w -> distinct (after c w).
Proof.
  intros A D.
  destruct c as [ns|index_spec create| | | |request response method
                |svc request response|fs srv ns];
    try (intros namespace name namespace' name' h; unfold cached, indexes_of;
         rewrite after_indexes by (intros; discriminate); apply D).
  by apply GetIndex_distinct.
Qed.

Lemma after_all_identity (calls : list (call Req Resp)) (w : World) :
  allocated w -> distinct w ->
  allocated (after_all calls w) /\ distinct (after_all calls w).
Proof.
  revert w. induction calls as [|c calls IH]; intros w A D; [done|].
  rewrite after_all_cons. apply IH; [by apply after_allocated|by apply after_distinct].
Qed.

Lemma built_distinct (service_name index_file : value) (w : World) :
  distinct (snd (SearchServiceStub service_name index_file w)).
Proof.
  intros namespace name namespace' name' h. unfold cached, indexes_of.
  rewrite SearchServiceStub_unfold.
  destruct (Read_frame (fresh service_name index_file w)) as ((Ha & _) & _).
  rewrite Ha, fresh_indexes; [by rewrite lookup_empty|].
  rewrite list_elem_of_singleton. intros H. apply private_inj in H. discriminate.
Qed.

End More_histories.

(** ** Construction, reading and lookup *)

(** X1.  With an [index_file] that is [None], or any other value that
    Python takes for false such as the empty string, the constructor
    returns, and [Read] has done nothing: the three attributes that
    [__init__] assigns are an empty cache, the index file as given and
    a free lock, no datastore location is assigned, nothing is logged or
    sent, and the files are as before. *)
Theorem construction_without_index_file
    (service_name index_file : value) (w : World) :
  truthy index_file = false ->
  let w' := snd (SearchServiceStub service_name index_file w) in
  fst (SearchServiceStub service_name index_file w) = Ok tt
  /\ attrs w' !! private "__indexes" = Some (VDict ∅)
  /\ attrs w' !! private "__index_file" = Some index_file
  /\ attrs w' !! private "__index_file_lock" = Some (VLock false)
  /\ attrs w' !! private "__datastore_location" = None
  /\ log w' = log w
  /\ files w' = files w
  /\ sent w' = sent w.
Proof.
  intros Ht.
  rewrite SearchServiceStub_unfold, Read_unfold, fresh_index_file, Ht.
  by repeat split.
Qed.

(** X2.  With a path that is not empty, has no NUL byte and names no
    file, the constructor returns all the same: it logs one warning,
    'Could not read search indexes from %s' with the path, and nothing
    else; the cache is empty and the lock is free, no file is changed
    and nothing is sent.  (A path with a NUL byte is refused by
    [os.stat] with a [TypeError], and the constructor raises.) *)
Theorem construction_with_missing_file
    (service_name : value) (p : string) (w : World) :
  p <> "" ->
  has_NUL p = false ->
  files w !! p = None ->
  let w' := snd (SearchServiceStub service_name (VStr p) w) in
  fst (SearchServiceStub service_name (VStr p) w) = Ok tt
  /\ log w' = could_not_read (VStr p) :: log w
  /\ attrs w' !! private "__indexes" = Some (VDict ∅)
  /\ attrs w' !! private "__index_file" = Some (VStr p)
  /\ attrs w' !! private "__index_file_lock" = Some (VLock false)
  /\ files w' = files w
  /\ sent w' = sent w.
Proof.
  intros Hp Hn Hf.
  assert (Ht : truthy (VStr p) = true).
  { cbn. destruct (String.eqb_spec p ""); [contradiction|reflexivity]. }
  rewrite SearchServiceStub_unfold, Read_unfold, fresh_index_file, Ht.
  rewrite (ReadFromFile_missing _ p) by done.
  by repeat split.
Qed.

(** X3.  Called with the lock free, [_ReadFromFile] ends in one of two
    ways.  Either it raises [NameError] for [pickle] and leaves the
    world as it found it, whatever went wrong in the suite under [try:]
    (a missing attribute, a path that is not a string or has a NUL byte,
    an existing file): the handler of the [except] clause never runs and its warning
    is never logged.  Or the index file is a path that names no file,
    and it returns the empty dictionary after the one warning for
    that. *)
Theorem ReadFromFile_outcomes (w w' : World)
    (r : outcome (gmap string (gmap string SimpleIndex))) :
  attrs w !! private "__index_file_lock" = Some (VLock false) ->
  _ReadFromFile w = (r, w') ->
  (r = Raise (NameError "pickle") /\ w' = w)
  \/ (exists p,
        attrs w !! private "__index_file" = Some (VStr p)
        /\ files w !! p = None
        /\ r = Ok ∅
        /\ w' = add_log (could_not_read (VStr p)) w).
Proof.
  intros L. rewrite ReadFromFile_unfold, L.
  destruct (attrs w !! private "__index_file") as [[| |p| |]|] eqn:F;
    try (rewrite unlock_lock by done; intros [= <- <-]; by left).
  destruct (files w !! p) eqn:E.
  - rewrite unlock_lock by done. intros [= <- <-]. by left.
  - destruct (has_NUL p).
    + rewrite unlock_lock by done. intros [= <- <-]. by left.
    + rewrite unlock_log_lock by done. intros [= <- <-]. right. by exists p.
Qed.

(** X4.  [Read] never replaces the cache: whatever it meets, every
    attribute but the lock is afterwards as before, and so is the lock
    when it was free on entry; [Read] writes no file, sends nothing and
    allocates nothing. *)
Theorem Read_keeps_attributes (w : World) :
  (forall a, a <> private "__index_file_lock" ->
             attrs (snd (Read w)) !! a = attrs w !! a)
  /\ (attrs w !! private "__index_file_lock" = Some (VLock false) ->
      attrs (snd (Read w)) = attrs w)
  /\ files (snd (Read w)) = files w
  /\ sent (snd (Read w)) = sent w
  /\ next_id (snd (Read w)) = next_id w.
Proof.
  destruct (Read_frame w) as ((Ha & Hf & _) & Hs & Hn).
  split; [|split; [|done]].
  - intros a Hne. apply Ha. by rewrite list_elem_of_singleton.
  - intros L. rewrite Read_unfold.
    destruct (attrs w !! private "__index_file") as [index_file|]; [|done].
    destruct (truthy index_file); [|done].
    rewrite ReadFromFile_unfold, L.
    destruct (attrs w !! private "__index_file") as [[| |p| |]|];
      try (by rewrite unlock_lock).
    destruct (files w !! p); [by rewrite unlock_lock|].
    destruct (has_NUL p);
      [by rewrite unlock_lock | by rewrite unlock_log_lock].
Qed.

(** X5.  A lookup without [create] of an index that is not cached
    returns [None] and builds no handle, but it is not free of effects:
    when the namespace had no dictionary yet, [setdefault] leaves an
    empty one for it in the cache. *)
Theorem GetIndex_miss_without_create
    (index_spec : IndexSpec) (w : World)
    (d : gmap string (gmap string SimpleIndex)) :
  attrs w !! private "__indexes" = Some (VDict d) ->
  cached w (resolve index_spec w) (spec_name index_spec) = None ->
  _GetIndex index_spec false w
  = (Ok None,
     match d !! resolve index_spec w with
     | Some _ => w
     | None => with_indexes (<[resolve index_spec w := ∅]> d) w
     end).
Proof.
  intros I C. rewrite GetIndex_unfold, I. cbn zeta.
  unfold cached, indexes_of in C. rewrite I in C.
  destruct (d !! resolve index_spec w) as [inner|]; [|reflexivity].
  by rewrite C.
Qed.

(** X6.  [_GetIndex] builds a [SimpleIndex] exactly when it has to: one
    object when the entry is missing and [create] is set, none when the
    entry is cached or [create] is not set. *)
Theorem GetIndex_allocates_when_it_creates
    (index_spec : IndexSpec) (create : bool) (w : World)
    (d : gmap string (gmap string SimpleIndex)) :
  attrs w !! private "__indexes" = Some (VDict d) ->
  next_id (snd (_GetIndex index_spec create w))
  = match cached w (resolve index_spec w) (spec_name index_spec) with
    | Some _ => next_id w
    | None => if create then S (next_id w) else next_id w
    end.
Proof.
  intros I. rewrite GetIndex_unfold, I. cbn zeta.
  unfold cached, indexes_of. rewrite I.
  destruct (d !! resolve index_spec w) as [inner|].
  - destruct (inner !! spec_name index_spec); [reflexivity|].
    by destruct create.
  - by destruct create.
Qed.

(** X15.  For an index specification that names its namespace,
    [_GetIndex] depends neither on the current global namespace nor on
    the files or the server: its result is the same and it changes the
    instance in the same way, and it leaves those three alone. *)
Theorem GetIndex_ignores_the_environment
    (namespace name : string) (create : bool) (w : World)
    (fs : gmap string file)
    (srv : SendCommand -> outcome (option ApiResponse)) (ns : string) :
  let index_spec := {| spec_namespace := Some namespace; spec_name := name |} in
  _GetIndex index_spec create (set_environment fs srv ns w)
  = (fst (_GetIndex index_spec create w),
     set_environment fs srv ns (snd (_GetIndex index_spec create w))).
Proof.
  intros index_spec. rewrite !GetIndex_unfold. cbn zeta.
  change (attrs (set_environment fs srv ns w)) with (attrs w).
  change (resolve index_spec (set_environment fs srv ns w)) with namespace.
  change (resolve index_spec w) with namespace.
  destruct (attrs w !! private "__indexes") as [[| | |indexes|]|];
    try reflexivity.
  destruct (indexes !! namespace) as [inner|].
  - destruct (inner !! spec_name index_spec); [reflexivity|].
    by destruct create.
  - by destruct create.
Qed.

(** ** Forwarding and identity *)

Section Further.

Context {Req Resp : Type} `{!ProtocolMessage Req} `{!ProtocolMessage Resp}.

(** X7.  On an instance built by the constructor, after any history of
    calls, the handle that [_GetIndex] creates for a missing entry is a
    new object: it is none of the handles in the cache before the call,
    and it is the one in the cache for that entry after it. *)
Theorem created_handle_is_new
    (service_name index_file : value) (w0 : World)
    (calls : list (call Req Resp)) (index_spec : IndexSpec)
    (h : SimpleIndex) (w' : World) :
  let w := after_all calls (snd (SearchServiceStub service_name index_file w0)) in
  cached w (resolve index_spec w) (spec_name index_spec) = None ->
  _GetIndex index_spec true w = (Ok (Some h), w') ->
  h = {| index_id := next_id w; index_spec_of := index_spec |}
  /\ (forall namespace name, cached w namespace name <> Some h)
  /\ cached w' (resolve index_spec w) (spec_name index_spec) = Some h.
Proof.
  intros w C E.
  destruct (after_all_identity calls _
              (built_allocated service_name index_file w0)
              (built_distinct service_name index_file w0)) as [A _].
  fold w in A.
  assert (Hs := GetIndex_stores index_spec true w w' h E).
  assert (Hh : h = new_index index_spec w).
  { assert (Hw : w' = snd (_GetIndex index_spec true w)) by by rewrite E.
    rewrite Hw in Hs. apply GetIndex_here in Hs as [Hs|Hs]; [congruence|done]. }
  split; [exact Hh|]. split; [|exact Hs].
  intros namespace name. rewrite Hh. by apply new_index_fresh.
Qed.

(** X8.  On an instance built by the constructor, after any history of
    calls, no two entries of the cache share a handle: a handle is
    cached under one namespace and one name only. *)
Theorem distinct_entries_hold_distinct_handles
    (service_name index_file : value) (w0 : World)
    (calls : list (call Req Resp))
    (namespace name namespace' name' : string) (h : SimpleIndex) :
  let w := after_all calls (snd (SearchServiceStub service_name index_file w0)) in
  cached w namespace name = Some h ->
  cached w namespace' name' = Some h ->
  namespace = namespace' /\ name = name'.
Proof.
  intros w.
  destruct (after_all_identity calls _
              (built_allocated service_name index_file w0)
              (built_distinct service_name index_file w0)) as [_ D].
  apply D.
Qed.

(** X9.  Given a datastore location, [_RemoteSend] hands exactly one
    command to the server, whatever the reply and the outcome: there is
    no retry.  The command is for the service "search", whatever service
    name the stub was built with, and the given method, carries the
    encoded request, goes to the location in the attribute with an empty
    URL, and passes the key file before the certificate file. *)
Theorem RemoteSend_sends_one_command
    (request : Req) (method : string) (w : World) (response : Resp)
    (location : value) :
  attrs w !! private "__datastore_location" = Some location ->
  sent (fst (snd (_RemoteSend request method (w, response))))
  = {| sc_self := {| service_name_ := "search"; method_ := method;
                     request_ := Encode request |};
       sc_location := location;
       sc_url := "";
       sc_response := {| response_ := None; application_error_ := None;
                         exception_ := None |};
       sc_arg4 := 1;
       sc_arg5 := false;
       sc_keyfile := "/etc/appscale/certs/mykey.pem";
       sc_certfile := "/etc/appscale/certs/mycert.pem" |} :: sent w.
Proof.
  intros L. rewrite RemoteSend_unfold, L. cbn zeta.
  destruct (server w _) as [[reply|]|e|]; try reflexivity.
  destruct (response_ reply) as [payload|]; [|reflexivity].
  destruct (application_error_ reply) as [error_pb|]; [reflexivity|].
  destruct (exception_ reply) as [e|]; reflexivity.
Qed.

(** X10.  What [sendCommand] raises, [_RemoteSend] raises: the
    exception is neither caught nor wrapped, the response is untouched,
    and a server that never answers blocks the call. *)
Theorem RemoteSend_propagates_transport_failure
    (request : Req) (method : string) (w : World) (response : Resp)
    (location : value) :
  attrs w !! private "__datastore_location" = Some location ->
  let c := command request method location in
  (forall e, server w c = Raise e ->
     _RemoteSend request method (w, response)
     = (Raise e, (add_sent c w, response)))
  /\ (server w c = Blocks ->
      _RemoteSend request method (w, response)
      = (Blocks, (add_sent c w, response))).
Proof.
  intros L c. subst c. rewrite RemoteSend_unfold, L. cbn zeta.
  split; [intros e ->|intros ->]; reflexivity.
Qed.

(** X11.  [_RemoteSend] logs in one case only: a reply that has a
    payload and an application error gets the detail of the error
    logged, once, as an error.  A missing location, a failed transport,
    a reply without payload (even one that carries an application
    error), a reply with an exception and a successful call log
    nothing. *)
Theorem RemoteSend_logs_only_application_errors
    (request : Req) (method : string) (w : World) (response : Resp) :
  log (fst (snd (_RemoteSend request method (w, response))))
  = match attrs w !! private "__datastore_location" with
    | Some location =>
        match server w (command request method location) with
        | Ok (Some reply) =>
            match response_ reply, application_error_ reply with
            | Some _, Some error_pb => Error (detail_ error_pb) [] :: log w
            | _, _ => log w
            end
        | _ => log w
        end
    | None => log w
    end.
Proof.
  rewrite RemoteSend_unfold.
  destruct (attrs w !! private "__datastore_location") as [location|];
    [|reflexivity].
  cbn zeta.
  destruct (server w _) as [[reply|]|e|]; try reflexivity.
  destruct (response_ reply) as [payload|]; [|reflexivity].
  destruct (application_error_ reply) as [error_pb|]; [reflexivity|].
  destruct (exception_ reply) as [e|]; reflexivity.
Qed.

(** X12.  The forwarding never consults the cache of index handles:
    with any other cache in place, [_RemoteSend] has the same outcome,
    leaves the same response and changes the world in the same way. *)
Theorem RemoteSend_ignores_the_cache
    (request : Req) (method : string) (w : World) (response : Resp)
    (d : gmap string (gmap string SimpleIndex)) :
  _RemoteSend request method (with_indexes d w, response)
  = (fst (_RemoteSend request method (w, response)),
     (with_indexes d (fst (snd (_RemoteSend request method (w, response)))),
      snd (snd (_RemoteSend request method (w, response))))).
Proof.
  rewrite !RemoteSend_unfold.
  assert (L : attrs (with_indexes d w) !! private "__datastore_location"
              = attrs w !! private "__datastore_location").
  { unfold with_indexes. cbn. apply lookup_insert_ne.
    intros H. apply private_inj in H. discriminate. }
  rewrite L.
  destruct (attrs w !! private "__datastore_location") as [location|];
    [|reflexivity].
  cbn zeta. change (server (with_indexes d w)) with (server w).
  destruct (server w _) as [[reply|]|e|]; try reflexivity.
  destruct (response_ reply) as [payload|]; [|reflexivity].
  destruct (application_error_ reply) as [error_pb|]; [reflexivity|].
  destruct (exception_ reply) as [e|]; reflexivity.
Qed.

(** X13.  The class serves five names, each once.  For every name:
    when the class has a method [_Dynamic_name], the name is one of the
    five and that method is [_RemoteSend] at that very name, on every
    request and state; otherwise the name is none of the five. *)
Theorem services_are_RemoteSend (name : string) :
  length services = 5%nat
  /\ NoDup services
  /\ match service name with
     | Some f =>
         name ∈ services
         /\ forall (request : Req) (s : World * Resp),
              f request s = _RemoteSend request name s
     | None => name ∉ services
     end.
Proof.
  split; [reflexivity|]. split.
  - change services with
      ["IndexDocument"; "DeleteDocument"; "ListIndexes"; "ListDocuments"; "Search"].
    repeat (apply NoDup_cons; split;
            [rewrite ?elem_of_cons, elem_of_nil; intros H;
             repeat (destruct H as [H|H]; [discriminate H|]); exact H|]).
    apply NoDup_nil_2.
  - destruct (service name) as [f|] eqn:S.
    + split; [apply (service_services (Req := Req) (Resp := Resp)); by rewrite S|].
      apply service_RemoteSend in S. by subst f.
    + intros H. apply (service_services (Req := Req) (Resp := Resp)) in H.
      rewrite S in H.
      by apply is_Some_None in H.
Qed.

(** X14.  When the server replies with a payload and neither
    application error nor exception, the outcome of [_RemoteSend] is the
    outcome of [ParseFromString] on the payload, and the response is
    what [ParseFromString] leaves: a payload that does not decode makes
    the call raise, and the response is not put back as it was. *)
Theorem RemoteSend_outcome_is_the_parse
    (request : Req) (method : string) (w : World) (response : Resp)
    (location : value) (reply : ApiResponse) (payload : string) :
  attrs w !! private "__datastore_location" = Some location ->
  server w (command request method location) = Ok (Some reply) ->
  response_ reply = Some payload ->
  application_error_ reply = None ->
  exception_ reply = None ->
  _RemoteSend request method (w, response)
  = (fst (ParseFromString payload response),
     (add_sent (command request method location) w,
      snd (ParseFromString payload response))).
Proof.
  intros L Hs Hp Ha He. rewrite RemoteSend_unfold, L. cbn zeta.
  by rewrite Hs, Hp, Ha, He.
Qed.

End Further.

(** ** The further properties at sample inputs *)

(** X1 at a sample input: the empty string as index file. *)
Lemma empty_path_builds :
  truthy (VStr "") = false
  /\ fst (SearchServiceStub (VStr "search") (VStr "") empty_world) = Ok tt
  /\ log (snd (SearchServiceStub (VStr "search") (VStr "") empty_world)) = [].
Proof.
  split; [reflexivity|].
  destruct (construction_without_index_file (VStr "search") (VStr "")
              empty_world eq_refl) as (H1 & _ & _ & _ & _ & H2 & _).
  split; [exact H1|exact H2].
Defined.

(** X2 at a sample input: no file at all. *)
Lemma missing_file_builds_with_a_warning :
  files empty_world !! "/tmp/search.idx" = None
  /\ has_NUL "/tmp/search.idx" = false
  /\ fst (SearchServiceStub (VStr "search") (VStr "/tmp/search.idx") empty_world)
     = Ok tt
  /\ log (snd (SearchServiceStub (VStr "search") (VStr "/tmp/search.idx")
                 empty_world))
     = [could_not_read (VStr "/tmp/search.idx")].
Proof.
  split; [reflexivity|]. split; [reflexivity|].
  destruct (construction_with_missing_file (VStr "search") "/tmp/search.idx"
              empty_world) as (H1 & H2 & _).
  - discriminate.
  - reflexivity.
  - reflexivity.
  - split; [exact H1|exact H2].
Defined.

(** X3 at a sample input: the index file is the number 5, and the
    [TypeError] of [os.path.isfile] is lost. *)
Lemma number_as_index_file_raises_NameError :
  let w := fresh (VStr "search") (VInt 5) empty_world in
  fst (_ReadFromFile w) = Raise (NameError "pickle")
  /\ snd (_ReadFromFile w) = w.
Proof.
  intros w.
  destruct (ReadFromFile_outcomes w (snd (_ReadFromFile w))
              (fst (_ReadFromFile w)) eq_refl (surjective_pairing _))
    as [H|(p & F & _)]; [exact H|].
  vm_compute in F. discriminate F.
Defined.

(** X4 at a sample input: [Read] raises on a saved pickle. *)
Lemma failed_Read_restores_the_lock :
  let w := fresh (VStr "search") (VStr "/tmp/search.idx")
             (with_files {[ "/tmp/search.idx" := Pickle 1 saved_indexes ]}
                empty_world) in
  fst (Read w) = Raise (NameError "pickle")
  /\ attrs (snd (Read w)) = attrs w.
Proof.
  intros w. split; [reflexivity|].
  destruct (Read_keeps_attributes w) as (_ & H & _).
  apply H. reflexivity.
Defined.

(** X5 at a sample input: the first lookup on a new instance. *)
Lemma lookup_of_books_leaves_a_namespace :
  let w := built VNone empty_world in
  _GetIndex books false w = (Ok None, with_indexes {[ "shop" := ∅ ]} w).
Proof.
  intros w.
  exact (GetIndex_miss_without_create books w ∅ eq_refl eq_refl).
Defined.

(** X6 at a sample input: creating the same index twice. *)
Lemma creating_books_allocates_once :
  let w := built VNone empty_world in
  next_id (snd (_GetIndex books true w)) = 1%nat
  /\ next_id (snd (_GetIndex books true (snd (_GetIndex books true w)))) = 1%nat.
Proof.
  intros w. split.
  - exact (GetIndex_allocates_when_it_creates books true w ∅ eq_refl).
  - exact (GetIndex_allocates_when_it_creates books true
             (snd (_GetIndex books true w)) saved_indexes eq_refl).
Defined.

(** X7 at a sample input: a second index is created. *)
Lemma books_after_journals_is_new :
  let w := after_all (Req := TextMessage) (Resp := TextMessage)
             [Call_GetIndex journals true]
             (snd (SearchServiceStub (VStr "search") VNone empty_world)) in
  let h := {| index_id := 1; index_spec_of := books |} in
  _GetIndex books true w = (Ok (Some h), snd (_GetIndex books true w))
  /\ forall namespace name, cached w namespace name <> Some h.
Proof.
  intros w h.
  assert (C : cached w (resolve books w) (spec_name books) = None)
    by (vm_compute; reflexivity).
  assert (E : _GetIndex books true w = (Ok (Some h), snd (_GetIndex books true w)))
    by (vm_compute; reflexivity).
  split; [exact E|].
  apply (created_handle_is_new (Req := TextMessage) (Resp := TextMessage)
           (VStr "search") VNone empty_world
           [Call_GetIndex journals true] books h
           (snd (_GetIndex books true w)) C E).
Defined.

(** X8 at a sample input: two indexes in two namespaces. *)
Lemma books_is_cached_once :
  let w := after_all (Req := TextMessage) (Resp := TextMessage)
             [Call_GetIndex books true; Call_GetIndex journals true]
             (built VNone empty_world) in
  cached w "shop" "books" = Some books_index
  /\ cached w "" "journals" <> Some books_index.
Proof.
  intros w. split; [reflexivity|].
  intros C.
  destruct (distinct_entries_hold_distinct_handles
              (Req := TextMessage) (Resp := TextMessage)
              (VStr "search") VNone empty_world
              [Call_GetIndex books true; Call_GetIndex journals true]
              "shop" "books" "" "journals" books_index eq_refl C) as [H _].
  discriminate H.
Defined.

(** X9 at a sample input: an instance that was given a location. *)
Lemma located_Search_sends_one_command :
  let w := located "datastore:8888" (built VNone empty_world) in
  length (sent (fst (snd (_RemoteSend {| text := "a query" |} "Search"
                            (w, {| text := "" |}))))) = 1%nat.
Proof.
  intros w.
  rewrite (RemoteSend_sends_one_command {| text := "a query" |} "Search" w
             {| text := "" |} (VStr "datastore:8888") eq_refl).
  reflexivity.
Defined.

(** X10 at a sample input: the connection fails with [IOError]. *)
Lemma refused_connection_is_raised :
  let w := with_server (failing_server IOError)
             (located "datastore:8888" (built VNone empty_world)) in
  fst (_RemoteSend {| text := "a query" |} "Search" (w, {| text := "before" |}))
  = Raise IOError
  /\ snd (snd (_RemoteSend {| text := "a query" |} "Search"
                 (w, {| text := "before" |}))) = {| text := "before" |}.
Proof.
  intros w.
  destruct (RemoteSend_propagates_transport_failure {| text := "a query" |}
              "Search" w {| text := "before" |} (VStr "datastore:8888") eq_refl)
    as [H _].
  rewrite (H IOError eq_refl). split; reflexivity.
Defined.

(** X14 at a sample input: the payload is not an encoding. *)
Lemma garbled_reply_clears_the_response :
  let w := with_server (fixed_server (Some garbled))
             (located "datastore:8888" (built VNone empty_world)) in
  _RemoteSend {| text := "a query" |} "Search" (w, {| text := "before" |})
  = (Raise ProtocolBufferDecodeError,
     (add_sent (command {| text := "a query" |} "Search" (VStr "datastore:8888")) w,
      {| text := "" |})).
Proof.
  intros w.
  exact (RemoteSend_outcome_is_the_parse {| text := "a query" |} "Search" w
           {| text := "before" |} (VStr "datastore:8888") garbled
           "!not an encoding" eq_refl eq_refl eq_refl eq_refl eq_refl).
Defined.
